(** * Trading calculator: the numeric calculation module

    A shallow embedding of the calculation code of the trading calculator
    (src/lib/math/utils.ts, src/lib/math/trading.ts, src/lib/math/prop.ts and
    the calculation helpers of the two pages) and the properties its
    specification states about it.

    Numbers.  A JavaScript [number] is modelled by the type [number] below:
    the three non-finite values the code tests for ([NaN], [Infinity],
    [-Infinity]) and the finite values, which are exact rationals.  The
    IEEE-754 special cases of every operator the code uses are written out;
    on finite operands the operators are exact, so the rounding, overflow and
    signed zero of binary64 are not part of the model.

    Exceptions.  [throw new Error(msg)] is the [Throw msg] outcome of the
    [result] monad; the pages' [try { ... } catch { return null }] is
    [catchNull]. *)

From Stdlib Require Import QArith Qabs Qminmax Qround Qpower Lqa Lia List Bool.
From Stdlib Require Import String.
From Stdlib Require Import Permutation.
Import ListNotations.

(* ------------------------------------------------------------------ *)
(** ** Exceptions *)

Inductive result (A : Type) : Type :=
| Ok (a : A)
| Throw (msg : string).

Arguments Ok {A} a.
Arguments Throw {A} msg.

Definition bind {A B : Type} (c : result A) (k : A -> result B) : result B :=
  match c with
  | Ok a => k a
  | Throw msg => Throw msg
  end.

Notation "x <- c ;; k" := (bind c (fun x => k))
  (at level 61, c at next level, right associativity).
Notation "c ;;; k" := (bind c (fun _ => k))
  (at level 61, right associativity).

(** [try { return c } catch { return null }] *)
Definition catchNull {A : Type} (c : result A) : option A :=
  match c with
  | Ok a => Some a
  | Throw _ => None
  end.

Definition throws {A : Type} (c : result A) : Prop :=
  exists msg, c = Throw msg.

(** [x ?? d] on an optional field. *)
Definition nullish {A : Type} (x : option A) (d : A) : A :=
  match x with
  | Some a => a
  | None => d
  end.

(* ------------------------------------------------------------------ *)
(** ** JavaScript numbers *)

Inductive number : Type :=
| NaN
| PInf
| NInf
| Fin (q : Q).

Declare Scope num_scope.
Delimit Scope num_scope with num.
Bind Scope num_scope with number.

Module Num.

Definition Qltb (a b : Q) : bool := negb (Qle_bool b a).

Definition infinity (sign : bool) : number :=
  if sign then PInf else NInf.

Definition add (a b : number) : number :=
  match a, b with
  | NaN, _ | _, NaN => NaN
  | PInf, NInf | NInf, PInf => NaN
  | PInf, _ | _, PInf => PInf
  | NInf, _ | _, NInf => NInf
  | Fin x, Fin y => Fin (x + y)
  end.

Definition sub (a b : number) : number :=
  match a, b with
  | NaN, _ | _, NaN => NaN
  | PInf, PInf | NInf, NInf => NaN
  | PInf, _ | _, NInf => PInf
  | NInf, _ | _, PInf => NInf
  | Fin x, Fin y => Fin (x - y)
  end.

Definition mul (a b : number) : number :=
  match a, b with
  | NaN, _ | _, NaN => NaN
  | PInf, PInf | NInf, NInf => PInf
  | PInf, NInf | NInf, PInf => NInf
  | PInf, Fin y | Fin y, PInf =>
      if Qeq_bool y 0 then NaN else infinity (Qltb 0 y)
  | NInf, Fin y | Fin y, NInf =>
      if Qeq_bool y 0 then NaN else infinity (Qltb y 0)
  | Fin x, Fin y => Fin (x * y)
  end.

Definition div (a b : number) : number :=
  match a, b with
  | NaN, _ | _, NaN => NaN
  | (PInf | NInf), (PInf | NInf) => NaN
  | PInf, Fin y => infinity (Qle_bool 0 y)
  | NInf, Fin y => infinity (Qltb y 0)
  | Fin _, (PInf | NInf) => Fin 0
  | Fin x, Fin y =>
      if Qeq_bool y 0
      then (if Qeq_bool x 0 then NaN else infinity (Qltb 0 x))
      else Fin (x / y)
  end.

(** [a < b]; every comparison with [NaN] is false. *)
Definition lt (a b : number) : bool :=
  match a, b with
  | NaN, _ | _, NaN => false
  | _, NInf | PInf, _ => false
  | NInf, _ | _, PInf => true
  | Fin x, Fin y => Qltb x y
  end.

Definition gt (a b : number) : bool := lt b a.

(** [a <= b] *)
Definition le (a b : number) : bool :=
  match a, b with
  | NaN, _ | _, NaN => false
  | NInf, _ | _, PInf => true
  | _, NInf | PInf, _ => false
  | Fin x, Fin y => Qle_bool x y
  end.

(** [a === b] on numbers. *)
Definition seq (a b : number) : bool :=
  match a, b with
  | PInf, PInf | NInf, NInf => true
  | Fin x, Fin y => Qeq_bool x y
  | _, _ => false
  end.

(** [Number.isFinite] *)
Definition isFinite (a : number) : bool :=
  match a with
  | Fin _ => true
  | _ => false
  end.

(** [Math.min] and [Math.max] of two arguments: [NaN] if either is. *)
Definition min (a b : number) : number :=
  match a, b with
  | NaN, _ | _, NaN => NaN
  | _, _ => if lt b a then b else a
  end.

Definition max (a b : number) : number :=
  match a, b with
  | NaN, _ | _, NaN => NaN
  | _, _ => if lt a b then b else a
  end.

(** [Math.abs] *)
Definition abs (a : number) : number :=
  match a with
  | NaN => NaN
  | PInf | NInf => PInf
  | Fin x => Fin (Qabs x)
  end.

(** The same number: rationals up to [Qeq], the other values up to
    identity. *)
Definition eqv (a b : number) : Prop :=
  match a, b with
  | NaN, NaN | PInf, PInf | NInf, NInf => True
  | Fin x, Fin y => x == y
  | _, _ => False
  end.

(** [Number.MAX_SAFE_INTEGER], 2^53 - 1. *)
Definition MAX_SAFE_INTEGER : number := Fin 9007199254740991.

(** [Math.floor]; the non-finite values are returned unchanged. *)
Definition floor (a : number) : number :=
  match a with
  | Fin x => Fin (inject_Z (Qfloor x))
  | _ => a
  end.

(** [Math.round]: the nearest integer, a half going upwards. *)
Definition round (a : number) : number :=
  match a with
  | Fin x => Fin (inject_Z (Qfloor (x + (1 # 2))))
  | _ => a
  end.

(** [10 ** d] for an integer exponent [d]. *)
Definition pow10 (d : Z) : number := Fin (10 ^ d).

End Num.

Notation "a + b" := (Num.add a b) : num_scope.
Notation "a - b" := (Num.sub a b) : num_scope.
Notation "a * b" := (Num.mul a b) : num_scope.
Notation "a / b" := (Num.div a b) : num_scope.
Notation "a <? b" := (Num.lt a b) (at level 70, no associativity) : num_scope.
Notation "a >? b" := (Num.gt a b) (at level 70, no associativity) : num_scope.
Notation "a <=? b" := (Num.le a b) (at level 70, no associativity) : num_scope.
Notation "a === b" := (Num.seq a b) (at level 70, no associativity) : num_scope.
Infix "=n=" := Num.eqv (at level 70, no associativity).

(** The numeric literals of the source. *)
Definition zero : number := Fin 0.
Definition one : number := Fin 1.

(** A finite, strictly positive (resp. non-negative) number. *)
Definition isPositive (n : number) : Prop :=
  match n with
  | Fin q => 0 < q
  | _ => False
  end.

Definition isNonNegative (n : number) : Prop :=
  match n with
  | Fin q => 0 <= q
  | _ => False
  end.

(* ------------------------------------------------------------------ *)
(** ** src/lib/math/utils.ts *)

Module Utils.

Definition isFiniteNumber (n : number) : bool := Num.isFinite n.

Definition clamp (n min max : number) : number :=
  Num.min max (Num.max min n).

Definition assertPositive (name : string) (n : number) : result unit :=
  if negb (Num.isFinite n) || (n <=? zero)%num
  then Throw (name ++ " must be > 0")%string
  else Ok tt.

Definition assertNonNegative (name : string) (n : number) : result unit :=
  if negb (Num.isFinite n) || (n <? zero)%num
  then Throw (name ++ " must be >= 0")%string
  else Ok tt.

(** [decimals] is an integer literal at every call site (2, 4, 6 or 8),
    and absent it defaults to 2. *)
Definition roundTo (n : number) (decimals : option Z) : number :=
  let p := Num.pow10 (nullish decimals 2%Z) in
  (Num.round (n * p) / p)%num.

End Utils.

(* ------------------------------------------------------------------ *)
(** ** src/lib/math/types.ts *)

Inductive Side : Type := long | short.

Record PnlInput : Type := {
  pnl_side : Side;
  entryPrice : number;
  exitPrice : number;
  quantity : number;
  feeRate : option number
}.

Record PnlResult : Type := {
  notionalEntry : number;
  notionalExit : number;
  grossPnl : number;
  fees : number;
  netPnl : number;
  roiOnNotionalEntry : number
}.

Record AvgEntryLeg : Type := {
  price : number;
  leg_quantity : number
}.

Record AvgEntryResult : Type := {
  totalQty : number;
  totalCost : number;
  avgPrice : number
}.

Record TargetAvgResult : Type := {
  requiredQty : number
}.

Record LiquidationInput : Type := {
  liq_side : Side;
  liq_entryPrice : number;
  leverage : number;
  mmr : option number
}.

Record Assumptions : Type := {
  assumed_mmr : number;
  simplified : bool
}.

Record LiquidationResult : Type := {
  liquidationPrice : number;
  assumptions : Assumptions
}.

(* ------------------------------------------------------------------ *)
(** ** src/lib/math/trading.ts *)

Module Trading.
Import Utils.
Local Open Scope num_scope.

Definition calcPnl (input : PnlInput) : result PnlResult :=
  let side := pnl_side input in
  let entryPrice := entryPrice input in
  let exitPrice := exitPrice input in
  let quantity := quantity input in
  let feeRate := nullish (feeRate input) zero in
  assertPositive "entryPrice" entryPrice ;;;
  assertPositive "exitPrice" exitPrice ;;;
  assertPositive "quantity" quantity ;;;
  assertNonNegative "feeRate" feeRate ;;;
  let notionalEntry := entryPrice * quantity in
  let notionalExit := exitPrice * quantity in
  let grossPnl :=
    match side with
    | long => (exitPrice - entryPrice) * quantity
    | short => (entryPrice - exitPrice) * quantity
    end in
  let fees := feeRate * (notionalEntry + notionalExit) in
  let netPnl := grossPnl - fees in
  let roiOnNotionalEntry := netPnl / notionalEntry in
  Ok {| notionalEntry := notionalEntry;
        notionalExit := notionalExit;
        grossPnl := grossPnl;
        fees := fees;
        netPnl := netPnl;
        roiOnNotionalEntry := roiOnNotionalEntry |}.

(** The [for (const leg of legs)] loop of [calcAvgEntry], threading the
    two accumulators; a [throw] in the body leaves the loop. *)
Fixpoint avgEntryLoop (legs : list AvgEntryLeg) (totalQty totalCost : number)
  : result (number * number) :=
  match legs with
  | [] => Ok (totalQty, totalCost)
  | leg :: rest =>
      assertPositive "leg.price" (price leg) ;;;
      assertPositive "leg.quantity" (leg_quantity leg) ;;;
      avgEntryLoop rest
        (totalQty + leg_quantity leg)
        (totalCost + price leg * leg_quantity leg)
  end.

Definition calcAvgEntry (legs : list AvgEntryLeg) : result AvgEntryResult :=
  match legs with
  | [] => Throw "legs must be a non-empty array"
  | _ =>
      acc <- avgEntryLoop legs zero zero ;;
      let totalQty := fst acc in
      let totalCost := snd acc in
      let avgPrice := totalCost / totalQty in
      Ok {| totalQty := totalQty; totalCost := totalCost; avgPrice := avgPrice |}
  end.

Definition calcRequiredQtyForTargetAvg
  (currentAvg currentQty newPrice targetAvg : number) : result TargetAvgResult :=
  assertPositive "currentAvg" currentAvg ;;;
  assertPositive "currentQty" currentQty ;;;
  assertPositive "newPrice" newPrice ;;;
  assertPositive "targetAvg" targetAvg ;;;
  let min := Num.min currentAvg newPrice in
  let max := Num.max currentAvg newPrice in
  if (targetAvg <? min) || (targetAvg >? max)
  then Ok {| requiredQty := zero |}
  else
    let denom := newPrice - targetAvg in
    if denom === zero then Ok {| requiredQty := zero |}
    else
      let requiredQty := (currentQty * (targetAvg - currentAvg)) / denom in
      Ok {| requiredQty := Num.max zero requiredQty |}.

Definition calcLiquidationPrice (input : LiquidationInput)
  : result LiquidationResult :=
  let side := liq_side input in
  let entryPrice := liq_entryPrice input in
  let leverage := leverage input in
  let mmr := nullish (mmr input) (Fin (5 # 1000)) in
  assertPositive "entryPrice" entryPrice ;;;
  assertPositive "leverage" leverage ;;;
  assertNonNegative "mmr" mmr ;;;
  let invLev := one / leverage in
  let liq :=
    match side with
    | long =>
        let liq := entryPrice * (one - invLev + mmr) in
        Num.min liq entryPrice
    | short =>
        let liq := entryPrice * (one + invLev - mmr) in
        Num.max liq entryPrice
    end in
  let liq := clamp liq zero Num.MAX_SAFE_INTEGER in
  Ok {| liquidationPrice := liq;
        assumptions := {| assumed_mmr := mmr; simplified := true |} |}.

Definition flipSide (side : Side) : Side :=
  match side with
  | long => short
  | short => long
  end.

Inductive Verdict : Type := better | worse | same.

Record Comparison : Type := {
  cmp_avgPrice : number;
  cmp_totalQty : number;
  pnlOld : number;
  pnlNew : number;
  delta : number;
  verdict : Verdict
}.

(** The literal [1e-8]. *)
Definition tolerance : number := Fin (1 # 100000000).

Definition compareAvgPnl
  (side : Side) (initialPrice initialQty addedPrice addedQty marketPrice : number)
  : result Comparison :=
  assertPositive "initialPrice" initialPrice ;;;
  assertPositive "initialQty" initialQty ;;;
  assertPositive "addedPrice" addedPrice ;;;
  assertPositive "addedQty" addedQty ;;;
  assertPositive "marketPrice" marketPrice ;;;
  let totalQty := initialQty + addedQty in
  let avgPrice := (initialPrice * initialQty + addedPrice * addedQty) / totalQty in
  let pnlOld :=
    match side with
    | long => (marketPrice - initialPrice) * initialQty
    | short => (initialPrice - marketPrice) * initialQty
    end in
  let pnlNew :=
    match side with
    | long => (marketPrice - avgPrice) * totalQty
    | short => (avgPrice - marketPrice) * totalQty
    end in
  let delta := pnlNew - pnlOld in
  let verdict :=
    if Num.abs delta <? tolerance then same
    else if delta >? zero then better else worse in
  Ok {| cmp_avgPrice := avgPrice;
        cmp_totalQty := totalQty;
        pnlOld := pnlOld;
        pnlNew := pnlNew;
        delta := delta;
        verdict := verdict |}.

(** The outcome of [qtyForTargetAvg]: [{ type: "invalid" }],
    [{ type: "reverse", qty }] or [{ type: "ok", qty }]. *)
Inductive TargetQty : Type :=
| invalid
| reverse (qty : number)
| ok (qty : number).

Definition qtyForTargetAvg
  (currentPrice currentQty targetAvg newPrice : number) : result TargetQty :=
  assertPositive "currentPrice" currentPrice ;;;
  assertPositive "currentQty" currentQty ;;;
  assertPositive "targetAvg" targetAvg ;;;
  assertPositive "newPrice" newPrice ;;;
  if newPrice === targetAvg then Ok invalid
  else
    let qty := (currentQty * (targetAvg - currentPrice)) / (newPrice - targetAvg) in
    if qty <? zero then Ok (reverse (Num.abs qty))
    else Ok (ok qty).

End Trading.

(* ------------------------------------------------------------------ *)
(** ** src/lib/math/prop.ts *)

Module PropMath.
Local Open Scope num_scope.

Definition clampNonNegative (n : number) : number :=
  if Num.isFinite n then Num.max zero n else zero.

Definition safeDiv (n d : number) : number :=
  if negb (Num.isFinite n) || negb (Num.isFinite d) || (d === zero)
  then zero
  else n / d.

Record TwoLegAverageInput : Type := {
  entry1Price : number;
  entry1Qty : number;
  entry2Price : option number;
  entry2Qty : option number
}.

Record TwoLegAverageResult : Type := {
  totalQty : number;
  avgEntry : number;
  avgShift : number;
  hasSecondLeg : bool
}.

Definition calcTwoLegAverage (input : TwoLegAverageInput) : TwoLegAverageResult :=
  let p1 := entry1Price input in
  let q1 := entry1Qty input in
  let p2 := nullish (entry2Price input) zero in
  let q2 := nullish (entry2Qty input) zero in
  let hasSecondLeg := Num.isFinite p2 && Num.isFinite q2 && (q2 >? zero) in
  let totalQty :=
    clampNonNegative q1 + (if hasSecondLeg then clampNonNegative q2 else zero) in
  let avgEntry :=
    if totalQty >? zero
    then (p1 * clampNonNegative q1
          + (if hasSecondLeg then p2 * clampNonNegative q2 else zero)) / totalQty
    else zero in
  {| totalQty := totalQty;
     avgEntry := avgEntry;
     avgShift := avgEntry - p1;
     hasSecondLeg := hasSecondLeg |}.

Record FuturesSpec : Type := {
  tickSize : number;
  tickValueUsd : number;
  pointValueUsd : option number
}.

(** [Number.isFinite(undefined)] is false, so an absent override falls
    through to the tick-derived value. *)
Definition derivePointValueUsd (spec : FuturesSpec) : number :=
  match pointValueUsd spec with
  | Some pv =>
      if Num.isFinite pv && (pv >? zero) then pv
      else safeDiv (tickValueUsd spec) (tickSize spec)
  | None => safeDiv (tickValueUsd spec) (tickSize spec)
  end.

Definition priceToPoints (priceDistance : number) : number :=
  Num.abs priceDistance.

Definition pointsToTicks (points tickSize : number) : number :=
  safeDiv (Num.abs points) tickSize.

Record FuturesRisk : Type := {
  stopPoints : number;
  stopTicks : number;
  futures_riskUsd : number
}.

Definition futuresRiskToStopUsd
  (avgEntry stopPrice contracts : number) (spec : FuturesSpec) : FuturesRisk :=
  let pointValue := derivePointValueUsd spec in
  let stopPoints := priceToPoints (avgEntry - stopPrice) in
  let stopTicks := pointsToTicks stopPoints (tickSize spec) in
  let riskUsd := stopPoints * pointValue * clampNonNegative contracts in
  {| stopPoints := stopPoints; stopTicks := stopTicks; futures_riskUsd := riskUsd |}.

Record FuturesBreach : Type := {
  maxAdversePoints : number;
  maxAdverseTicks : number;
  futures_breachPrice : number
}.

Definition futuresBreachPrice
  (side : Side) (avgEntry contracts remainingDrawdownUsd : number)
  (spec : FuturesSpec) : FuturesBreach :=
  let pointValue := derivePointValueUsd spec in
  let denom := pointValue * clampNonNegative contracts in
  let maxAdversePoints :=
    if denom >? zero then clampNonNegative remainingDrawdownUsd / denom else zero in
  let maxAdverseTicks := pointsToTicks maxAdversePoints (tickSize spec) in
  let breachPrice :=
    match side with
    | long => avgEntry - maxAdversePoints
    | short => avgEntry + maxAdversePoints
    end in
  {| maxAdversePoints := maxAdversePoints;
     maxAdverseTicks := maxAdverseTicks;
     futures_breachPrice := breachPrice |}.

Record ForexSpec : Type := {
  pipSize : number;
  pipValueUsd : number
}.

Definition forexPriceToPips (priceDistance pipSize : number) : number :=
  safeDiv (Num.abs priceDistance) pipSize.

Record ForexRisk : Type := {
  stopPips : number;
  forex_riskUsd : number
}.

Definition forexRiskToStopUsd
  (avgEntry stopPrice lots : number) (spec : ForexSpec) : ForexRisk :=
  let stopPips := forexPriceToPips (avgEntry - stopPrice) (pipSize spec) in
  let riskUsd := stopPips * pipValueUsd spec * clampNonNegative lots in
  {| stopPips := stopPips; forex_riskUsd := riskUsd |}.

Record ForexBreach : Type := {
  maxAdversePips : number;
  forex_breachPrice : number
}.

Definition forexBreachPrice
  (side : Side) (avgEntry lots remainingDrawdownUsd : number)
  (spec : ForexSpec) : ForexBreach :=
  let denom := pipValueUsd spec * clampNonNegative lots in
  let maxAdversePips :=
    if denom >? zero then clampNonNegative remainingDrawdownUsd / denom else zero in
  let maxAdversePriceDist := maxAdversePips * pipSize spec in
  let breachPrice :=
    match side with
    | long => avgEntry - maxAdversePriceDist
    | short => avgEntry + maxAdversePriceDist
    end in
  {| maxAdversePips := maxAdversePips; forex_breachPrice := breachPrice |}.

Definition roundTo (n : number) (decimals : Z) : number :=
  if negb (Num.isFinite n) then zero
  else
    let p := Num.pow10 (Z.max 0 decimals) in
    Num.round (n * p) / p.

Record MaxContracts : Type := {
  mc_stopPoints : number;
  maxContracts : number
}.

Definition futuresMaxContractsForStop
  (avgEntry stopPrice remainingDrawdownUsd : number) (spec : FuturesSpec)
  : MaxContracts :=
  let pointValue := derivePointValueUsd spec in
  let stopPoints := priceToPoints (avgEntry - stopPrice) in
  let perContractRisk := stopPoints * pointValue in
  let maxContracts :=
    if perContractRisk >? zero
    then Num.floor (remainingDrawdownUsd / perContractRisk)
    else zero in
  {| mc_stopPoints := stopPoints;
     maxContracts := clampNonNegative maxContracts |}.

Record MaxLots : Type := {
  ml_stopPips : number;
  maxLots : number
}.

Definition forexMaxLotsForStop
  (avgEntry stopPrice remainingDrawdownUsd : number) (spec : ForexSpec)
  : MaxLots :=
  let stopPips := forexPriceToPips (avgEntry - stopPrice) (pipSize spec) in
  let perLotRisk := stopPips * pipValueUsd spec in
  let maxLots :=
    if perLotRisk >? zero then remainingDrawdownUsd / perLotRisk else zero in
  {| ml_stopPips := stopPips; maxLots := clampNonNegative maxLots |}.

End PropMath.

(* ------------------------------------------------------------------ *)
(** ** The prop-firm page: its calculation helpers and derived values *)

Module PropFirm.
Local Open Scope num_scope.

Inductive Mode : Type := futures | forex.

Definition derivePointValueUsd
  (tickSize tickValueUsd : number) (pointValueOverride : option number) : number :=
  let derived :=
    if negb (Num.isFinite tickSize) || (tickSize <=? zero) then NaN
    else if negb (Num.isFinite tickValueUsd) || (tickValueUsd <=? zero) then NaN
    else tickValueUsd / tickSize in
  match pointValueOverride with
  | Some pv => if Num.isFinite pv && (pv >? zero) then pv else derived
  | None => derived
  end.

Record Avg2Leg : Type := {
  totalQty : number;
  avgPrice : number;
  totalCost : number
}.

Definition calcAvg2Leg (p1 q1 p2 q2 : number) : result Avg2Leg :=
  if negb ((p1 >? zero) && (q1 >? zero) && (p2 >? zero) && (q2 >? zero))
  then Throw "invalid"
  else
    let totalQty := q1 + q2 in
    let avgPrice := (p1 * q1 + p2 * q2) / totalQty in
    let totalCost := p1 * q1 + p2 * q2 in
    Ok {| totalQty := totalQty; avgPrice := avgPrice; totalCost := totalCost |}.

(** The instrument fields [pointValueUsd?], [pipSize?] and [pipValueUsd?]
    of the argument objects; an absent field is [undefined], and
    [undefined > 0] is false. *)
Record Instrument : Type := {
  pointValueUsd : option number;
  pipSize : option number;
  pipValueUsd : option number
}.

Definition pnlAtPrice
  (mode : Mode) (side : Side) (entryPrice qty markPrice : number)
  (args : Instrument) : result number :=
  if negb ((entryPrice >? zero) && (markPrice >? zero) && (qty >? zero))
  then Throw "invalid"
  else
    let dir := match side with long => Fin 1 | short => Fin (-1) end in
    match mode with
    | futures =>
        match pointValueUsd args with
        | None => Throw "invalid"
        | Some pv =>
            if negb (pv >? zero) then Throw "invalid"
            else
              let points := (markPrice - entryPrice) * dir in
              Ok (points * pv * qty)
        end
    | forex =>
        match pipSize args, pipValueUsd args with
        | Some pipSize, Some pipValue =>
            if negb ((pipSize >? zero) && (pipValue >? zero)) then Throw "invalid"
            else
              let pips := ((markPrice - entryPrice) / pipSize) * dir in
              Ok (pips * pipValue * qty)
        | _, _ => Throw "invalid"
        end
    end.

Inductive Unit : Type := points | pips.

Record Breach : Type := {
  maxAdverse : number;
  breach : number;
  unit : Unit
}.

Definition breachPrice
  (mode : Mode) (side : Side) (avgEntry qty remainingDrawdownUsd : number)
  (args : Instrument) : result Breach :=
  if negb ((avgEntry >? zero) && (qty >? zero) && (remainingDrawdownUsd >? zero))
  then Throw "invalid"
  else
    let dir := match side with long => Fin (-1) | short => Fin 1 end in
    match mode with
    | futures =>
        match pointValueUsd args with
        | None => Throw "invalid"
        | Some pv =>
            if negb (pv >? zero) then Throw "invalid"
            else
              let maxAdversePoints := remainingDrawdownUsd / (pv * qty) in
              let price := avgEntry + dir * maxAdversePoints in
              Ok {| maxAdverse := maxAdversePoints; breach := price; unit := points |}
        end
    | forex =>
        match pipSize args, pipValueUsd args with
        | Some pipSize, Some pipValue =>
            if negb ((pipSize >? zero) && (pipValue >? zero)) then Throw "invalid"
            else
              let maxAdversePips := remainingDrawdownUsd / (pipValue * qty) in
              let price := avgEntry + dir * (maxAdversePips * pipSize) in
              Ok {| maxAdverse := maxAdversePips; breach := price; unit := pips |}
        | _, _ => Throw "invalid"
        end
    end.

(** The derived values of the component, as functions of the state they
    are memoised on. *)
Definition effectiveRemaining
  (remainingDrawdownUsd dailyLossRemainingUsd : number) : number :=
  let a := remainingDrawdownUsd in
  let b := dailyLossRemainingUsd in
  if Num.isFinite a && (a >? zero) && Num.isFinite b && (b >? zero) then Num.min a b
  else if Num.isFinite a && (a >? zero) then a
  else if Num.isFinite b && (b >? zero) then b
  else NaN.

Definition avg (leg1Price leg1Qty leg2Price leg2Qty : number) : option Avg2Leg :=
  catchNull (calcAvg2Leg leg1Price leg1Qty leg2Price leg2Qty).

Definition breachMemo
  (avg : option Avg2Leg) (mode : Mode) (side : Side)
  (effectiveRemaining : number) (args : Instrument) : option Breach :=
  catchNull
    match avg with
    | None => Throw "invalid"
    | Some avg =>
        if negb (effectiveRemaining >? zero) then Throw "invalid"
        else breachPrice mode side (avgPrice avg) (totalQty avg)
               effectiveRemaining args
    end.

Definition riskToStop
  (avg : option Avg2Leg) (stopPrice : number) (mode : Mode) (side : Side)
  (args : Instrument) : option number :=
  catchNull
    match avg with
    | None => Throw "invalid"
    | Some avg =>
        if negb (stopPrice >? zero) then Throw "invalid"
        else
          risk <- pnlAtPrice mode side (avgPrice avg) (totalQty avg) stopPrice args ;;
          Ok (Num.abs risk)
    end.

Record Preset : Type := {
  key : string;
  label : string;
  preset_tickSize : number;
  preset_tickValueUsd : number
}.

Definition FUTURES_PRESETS : list Preset :=
  [ {| key := "ES"; label := "ES (E-mini S&P 500)";
       preset_tickSize := Fin (25 # 100); preset_tickValueUsd := Fin (125 # 10) |};
    {| key := "MES"; label := "MES (Micro E-mini S&P)";
       preset_tickSize := Fin (25 # 100); preset_tickValueUsd := Fin (125 # 100) |};
    {| key := "NQ"; label := "NQ (E-mini Nasdaq)";
       preset_tickSize := Fin (25 # 100); preset_tickValueUsd := Fin 5 |};
    {| key := "MNQ"; label := "MNQ (Micro E-mini Nasdaq)";
       preset_tickSize := Fin (25 # 100); preset_tickValueUsd := Fin (5 # 10) |};
    {| key := "YM"; label := "YM (E-mini Dow)";
       preset_tickSize := Fin 1; preset_tickValueUsd := Fin 5 |};
    {| key := "MYM"; label := "MYM (Micro E-mini Dow)";
       preset_tickSize := Fin 1; preset_tickValueUsd := Fin (5 # 10) |};
    {| key := "RTY"; label := "RTY (E-mini Russell)";
       preset_tickSize := Fin (1 # 10); preset_tickValueUsd := Fin 5 |};
    {| key := "M2K"; label := "M2K (Micro E-mini Russell)";
       preset_tickSize := Fin (1 # 10); preset_tickValueUsd := Fin (5 # 10) |};
    {| key := "CL"; label := "CL (Crude Oil)";
       preset_tickSize := Fin (1 # 100); preset_tickValueUsd := Fin 10 |};
    {| key := "MCL"; label := "MCL (Micro Crude)";
       preset_tickSize := Fin (1 # 100); preset_tickValueUsd := Fin 1 |};
    {| key := "GC"; label := "GC (Gold)";
       preset_tickSize := Fin (1 # 10); preset_tickValueUsd := Fin 10 |};
    {| key := "MGC"; label := "MGC (Micro Gold)";
       preset_tickSize := Fin (1 # 10); preset_tickValueUsd := Fin 1 |} ].

(** [FUTURES_PRESETS.find((p) => p.key === instrument)] *)
Definition preset (instrument : string) : option Preset :=
  find (fun p => String.eqb (key p) instrument) FUTURES_PRESETS.

Record PnlComparison : Type := {
  pnlOld : number;
  pnlNew : number;
  delta : number;
  verdict : Trading.Verdict
}.

(** The literal [1e-9]. *)
Definition tolerance : number := Fin (1 # 1000000000).

Definition comparison
  (mode : Mode) (side : Side)
  (leg1Price leg1Qty leg2Price leg2Qty marketPrice : number)
  (args : Instrument) : option PnlComparison :=
  catchNull
    (if negb (marketPrice >? zero) then Throw "invalid"
     else if negb ((leg1Price >? zero) && (leg1Qty >? zero)) then Throw "invalid"
     else if negb ((leg2Price >? zero) && (leg2Qty >? zero)) then Throw "invalid"
     else
       let avgEntry :=
         (leg1Price * leg1Qty + leg2Price * leg2Qty) / (leg1Qty + leg2Qty) in
       pnlOld <- pnlAtPrice mode side leg1Price leg1Qty marketPrice args ;;
       pnlNew <- pnlAtPrice mode side avgEntry (leg1Qty + leg2Qty)
                   marketPrice args ;;
       let delta := pnlNew - pnlOld in
       let verdict :=
         if Num.abs delta <? tolerance then Trading.same
         else if delta >? zero then Trading.better else Trading.worse in
       Ok {| pnlOld := pnlOld; pnlNew := pnlNew;
             delta := delta; verdict := verdict |}).

End PropFirm.

(* ------------------------------------------------------------------ *)
(** ** The calculator page: derived values *)

Module Page.

Definition pnl (side : Side) (entryPrice exitPrice quantity feeRate : number)
  : option PnlResult :=
  catchNull
    (Trading.calcPnl
       {| pnl_side := side; entryPrice := entryPrice; exitPrice := exitPrice;
          quantity := quantity; feeRate := Some feeRate |}).

Definition avg (leg1Price leg1Qty leg2Price leg2Qty : number)
  : option AvgEntryResult :=
  catchNull
    (Trading.calcAvgEntry
       [ {| price := leg1Price; leg_quantity := leg1Qty |};
         {| price := leg2Price; leg_quantity := leg2Qty |} ]).

Definition liq (liqSide : Side) (liqEntry leverage mmr : number)
  : option LiquidationResult :=
  catchNull
    (Trading.calcLiquidationPrice
       {| liq_side := liqSide; liq_entryPrice := liqEntry;
          leverage := leverage; mmr := Some mmr |}).

End Page.

(* ------------------------------------------------------------------ *)
(** ** Quantities the properties are stated with *)

(** The directional profit of [qty] units moved from price [from] to
    price [to]. *)
Definition directional (side : Side) (from to qty : Q) : Q :=
  match side with
  | long => (to - from) * qty
  | short => (from - to) * qty
  end.

(** The quantity solving
    targetAvg = (currentPrice * currentQty + newPrice * x) / (currentQty + x). *)
Definition solvedQty (currentPrice currentQty targetAvg newPrice : Q) : Q :=
  currentQty * (targetAvg - currentPrice) / (newPrice - targetAvg).

(** [Number.MAX_SAFE_INTEGER] as a rational. *)
Definition maxSafe : Q := 9007199254740991.

(** The price at distance [dist] from [entry] in the adverse direction:
    below the entry for a long, above it for a short. *)
Definition adverse (side : Side) (entry dist : Q) : Q :=
  match side with
  | long => entry - dist
  | short => entry + dist
  end.

(** The numbers the test [n > 0] rejects: [NaN] and the numbers that are
    not greater than 0. *)
Definition nanOrNonPositive (n : number) : Prop :=
  match n with
  | NaN | NInf => True
  | PInf => False
  | Fin q => q <= 0
  end.

(** An optional field that is absent or rejected by the test [> 0]. *)
Definition absentOrRejected (o : option number) : Prop :=
  match o with
  | Some v => nanOrNonPositive v
  | None => True
  end.

(** The instrument values a mode requires, one of which is rejected. *)
Definition instrumentRejected
  (mode : PropFirm.Mode) (args : PropFirm.Instrument) : Prop :=
  match mode with
  | PropFirm.futures => absentOrRejected (PropFirm.pointValueUsd args)
  | PropFirm.forex =>
      absentOrRejected (PropFirm.pipSize args)
      \/ absentOrRejected (PropFirm.pipValueUsd args)
  end.

(** E-mini S&P 500: tick size 0.25, tick value 12.5. *)
Definition ES : PropMath.FuturesSpec :=
  {| PropMath.tickSize := Fin (1 # 4);
     PropMath.tickValueUsd := Fin (25 # 2);
     PropMath.pointValueUsd := None |}.

(** A leg with finite price and quantity, and the sums and extreme prices
    of a list of such legs. *)
Definition leg (pq : Q * Q) : AvgEntryLeg :=
  {| price := Fin (fst pq); leg_quantity := Fin (snd pq) |}.

Fixpoint sumQty (legs : list (Q * Q)) : Q :=
  match legs with
  | [] => 0
  | pq :: rest => snd pq + sumQty rest
  end.

Fixpoint sumCost (legs : list (Q * Q)) : Q :=
  match legs with
  | [] => 0
  | pq :: rest => fst pq * snd pq + sumCost rest
  end.

Fixpoint minPrice (p : Q) (rest : list (Q * Q)) : Q :=
  match rest with
  | [] => p
  | pq :: rest' => Qmin p (minPrice (fst pq) rest')
  end.

Fixpoint maxPrice (p : Q) (rest : list (Q * Q)) : Q :=
  match rest with
  | [] => p
  | pq :: rest' => Qmax p (maxPrice (fst pq) rest')
  end.

Definition positiveLeg (pq : Q * Q) : Prop := 0 < fst pq /\ 0 < snd pq.

(** The point value the prop-firm page derives for a freshly selected
    preset: its effect copies the preset's tick fields into the state and
    resets the override to NaN. *)
Definition presetPointValueUsd (p : PropFirm.Preset) : number :=
  PropFirm.derivePointValueUsd
    (PropFirm.preset_tickSize p) (PropFirm.preset_tickValueUsd p) (Some NaN).

(** The legs with every quantity multiplied by [k]. *)
Definition scaleQty (k : Q) (legs : list (Q * Q)) : list (Q * Q) :=
  map (fun pq => (fst pq, k * snd pq)) legs.

(** The verdict with better and worse exchanged. *)
Definition flipVerdict (v : Trading.Verdict) : Trading.Verdict :=
  match v with
  | Trading.better => Trading.worse
  | Trading.worse => Trading.better
  | Trading.same => Trading.same
  end.

(** The verdict the comparisons give to a difference [d] under the
    tolerance [tol]. *)
Definition verdictOf (tol d : Q) : Trading.Verdict :=
  if Num.Qltb (Qabs d) tol then Trading.same
  else if Num.Qltb 0 d then Trading.better else Trading.worse.

(** An override of the point value that is present, finite and positive. *)
Definition validOverride (o : option number) : Prop :=
  match o with
  | Some pv => isPositive pv
  | None => False
  end.

(** The sign of a side: +1 for a long, -1 for a short. *)
Definition direction (side : Side) : Q :=
  match side with
  | long => 1
  | short => -1
  end.

(** A number that is an integer. *)
Definition isInteger (n : number) : Prop :=
  match n with
  | Fin q => exists k : Z, q == inject_Z k
  | _ => False
  end.

(** Two optional results that are both absent or hold the same number. *)
Definition sameOption (a b : option number) : Prop :=
  match a, b with
  | Some x, Some y => x =n= y
  | None, None => True
  | _, _ => False
  end.

(* ================================================================== *)
(** * Properties *)

(* ------------------------------------------------------------------ *)
(** ** Comparisons of rationals and the validation helpers *)

Lemma Qltb_spec (a b : Q) : reflect (a < b) (Num.Qltb a b).
Proof.
  unfold Num.Qltb.
  destruct (Qle_bool b a) eqn:E; constructor.
  - apply Qle_bool_iff in E. lra.
  - destruct (Qlt_le_dec a b) as [Hlt | Hle]; [exact Hlt |].
    apply Qle_bool_iff in Hle. congruence.
Qed.

Lemma Qleb_spec (a b : Q) : reflect (a <= b) (Qle_bool a b).
Proof.
  destruct (Qle_bool a b) eqn:E; constructor.
  - now apply Qle_bool_iff.
  - intros H. apply Qle_bool_iff in H. congruence.
Qed.

Lemma Qeqb_spec (a b : Q) : reflect (a == b) (Qeq_bool a b).
Proof.
  destruct (Qeq_bool a b) eqn:E; constructor.
  - now apply Qeq_bool_iff.
  - now apply Qeq_bool_neq.
Qed.

(** Decide every rational test in sight and close the absurd branches by
    linear arithmetic. *)
Ltac qtests :=
  repeat match goal with
    | |- context [Num.Qltb ?a ?b] => destruct (Qltb_spec a b)
    | |- context [Qle_bool ?a ?b] => destruct (Qleb_spec a b)
    | |- context [Qeq_bool ?a ?b] => destruct (Qeqb_spec a b)
    end;
  simpl; try reflexivity; try lra; try tauto.

Lemma isPositive_inv (n : number) :
  isPositive n -> exists q, n = Fin q /\ 0 < q.
Proof. destruct n; simpl; try tauto. eauto. Qed.

Lemma isNonNegative_inv (n : number) :
  isNonNegative n -> exists q, n = Fin q /\ 0 <= q.
Proof. destruct n; simpl; try tauto. eauto. Qed.

Lemma assertPositive_Ok (name : string) (n : number) :
  isPositive n -> Utils.assertPositive name n = Ok tt.
Proof.
  intros (q & -> & Hq)%isPositive_inv.
  unfold Utils.assertPositive, zero. simpl. qtests.
Qed.

Lemma assertPositive_Throw (name : string) (n : number) :
  ~ isPositive n ->
  Utils.assertPositive name n = Throw (name ++ " must be > 0")%string.
Proof.
  unfold Utils.assertPositive, zero.
  destruct n as [ | | | q]; simpl; try reflexivity.
  intros H. qtests.
Qed.

Lemma assertNonNegative_Ok (name : string) (n : number) :
  isNonNegative n -> Utils.assertNonNegative name n = Ok tt.
Proof.
  intros (q & -> & Hq)%isNonNegative_inv.
  unfold Utils.assertNonNegative, zero. simpl. qtests.
Qed.

Lemma assertNonNegative_Throw (name : string) (n : number) :
  ~ isNonNegative n ->
  Utils.assertNonNegative name n = Throw (name ++ " must be >= 0")%string.
Proof.
  unfold Utils.assertNonNegative, zero.
  destruct n as [ | | | q]; simpl; try reflexivity.
  intros H. qtests.
Qed.

Lemma isPositive_dec (n : number) : {isPositive n} + {~ isPositive n}.
Proof.
  destruct n as [ | | | q]; simpl; auto.
  destruct (Qlt_le_dec 0 q); [left | right]; lra.
Qed.

Lemma isNonNegative_dec (n : number) : {isNonNegative n} + {~ isNonNegative n}.
Proof.
  destruct n as [ | | | q]; simpl; auto.
  destruct (Qlt_le_dec q 0); [right | left]; lra.
Qed.

(** Division of finite numbers by a non-zero divisor stays finite. *)
Lemma div_Fin (x y : Q) : ~ y == 0 -> (Fin x / Fin y)%num = Fin (x / y).
Proof. intros H. simpl. qtests. Qed.

(* ------------------------------------------------------------------ *)
(** ** PnL *)

Section CalcPnl.
  Variables (side : Side) (e x q : Q) (fr : option number) (f : Q).
  Hypothesis entry_pos : 0 < e.
  Hypothesis exit_pos : 0 < x.
  Hypothesis qty_pos : 0 < q.
  Hypothesis fee_val : nullish fr zero = Fin f.
  Hypothesis fee_nonneg : 0 <= f.


End CalcPnl.

(** The worked examples of the specification: a long 100 -> 110 earns 10
    on one unit (roi 0.10) where the short loses 10, and a fee rate of
    0.001 on a flat round trip at 100 costs 0.2. *)
Example calcPnl_long_100_110 :
  exists r : PnlResult,
    Trading.calcPnl
      {| pnl_side := long; entryPrice := Fin 100; exitPrice := Fin 110;
         quantity := Fin 1; feeRate := None |} = Ok r /\
    grossPnl r =n= Fin 10 /\ fees r =n= Fin 0 /\
    netPnl r =n= Fin 10 /\ roiOnNotionalEntry r =n= Fin (1 # 10).
Proof. eexists; split; [reflexivity |]. repeat split. Qed.

Example calcPnl_short_100_110 :
  exists r : PnlResult,
    Trading.calcPnl
      {| pnl_side := short; entryPrice := Fin 100; exitPrice := Fin 110;
         quantity := Fin 1; feeRate := Some (Fin 0) |} = Ok r /\
    netPnl r =n= Fin (-10).
Proof. eexists; split; [reflexivity |]. reflexivity. Qed.

Example calcPnl_fee_symmetry :
  exists r : PnlResult,
    Trading.calcPnl
      {| pnl_side := long; entryPrice := Fin 100; exitPrice := Fin 100;
         quantity := Fin 1; feeRate := Some (Fin (1 # 1000)) |} = Ok r /\
    grossPnl r =n= Fin 0 /\ fees r =n= Fin (2 # 10) /\
    netPnl r =n= Fin (- (2 # 10)).
Proof. eexists; split; [reflexivity |]. repeat split. Qed.


(* ------------------------------------------------------------------ *)
(** ** Target average *)

Lemma Qdiv_neg_iff (a b : Q) :
  ~ b == 0 -> (a / b < 0 <-> (a < 0 /\ 0 < b) \/ (0 < a /\ b < 0)).
Proof.
  intros Hb. unfold Qdiv.
  destruct (Qlt_le_dec 0 b) as [Hpos | Hneg].
  - pose proof (Qinv_lt_0_compat b Hpos) as Hi. nra.
  - assert (Hlt : b < 0) by lra.
    assert (Hi : 0 < / - b) by (apply Qinv_lt_0_compat; lra).
    assert (E : / b == - / - b).
    { field. exact Hb. }
    rewrite E. nra.
Qed.

Section TargetAvg.
  Variables cp cq t np : Q.
  Hypothesis cp_pos : 0 < cp.
  Hypothesis cq_pos : 0 < cq.
  Hypothesis t_pos : 0 < t.
  Hypothesis np_pos : 0 < np.

Lemma qtyForTargetAvg_outcomes :
  (np == t ->
     Trading.qtyForTargetAvg (Fin cp) (Fin cq) (Fin t) (Fin np)
     = Ok Trading.invalid) /\
  (~ np == t -> solvedQty cp cq t np < 0 ->
     Trading.qtyForTargetAvg (Fin cp) (Fin cq) (Fin t) (Fin np)
     = Ok (Trading.reverse (Fin (Qabs (solvedQty cp cq t np))))) /\
  (~ np == t -> ~ solvedQty cp cq t np < 0 ->
     Trading.qtyForTargetAvg (Fin cp) (Fin cq) (Fin t) (Fin np)
     = Ok (Trading.ok (Fin (solvedQty cp cq t np)))
     /\ 0 <= solvedQty cp cq t np).
Proof.
  unfold Trading.qtyForTargetAvg.
  rewrite !assertPositive_Ok by (simpl; assumption). cbn [bind].
  cbn [Num.seq Num.sub Num.mul].
  repeat split.
  - intros E. qtests.
  - intros E Hx. destruct (Qeqb_spec np t); [tauto |].
    rewrite div_Fin by lra. fold (solvedQty cp cq t np).
    unfold zero. cbn [Num.lt Num.abs]. qtests.
  - destruct (Qeqb_spec np t); [tauto |].
    rewrite div_Fin by lra. fold (solvedQty cp cq t np).
    unfold zero. cbn [Num.lt]. qtests.
  - lra.
Qed.

Lemma range_guard :
  ((Fin t <? Num.min (Fin cp) (Fin np))
   || (Fin t >? Num.max (Fin cp) (Fin np)))%num = true
  <-> (t < cp /\ t < np) \/ (cp < t /\ np < t).
Proof.
  unfold Num.gt. cbn [Num.min Num.max Num.lt].
  destruct (Qltb_spec np cp), (Qltb_spec cp np); cbn [Num.lt];
    destruct (Qltb_spec t np), (Qltb_spec np t),
             (Qltb_spec t cp), (Qltb_spec cp t);
    cbn [orb]; split; intros; try discriminate; try reflexivity; lra.
Qed.

Lemma solved_negative :
  ~ np == t ->
  (solvedQty cp cq t np < 0 <-> (t < cp /\ t < np) \/ (cp < t /\ np < t)).
Proof.
  intros E. unfold solvedQty. rewrite Qdiv_neg_iff by lra. nra.
Qed.

Lemma calcRequiredQtyForTargetAvg_outcomes :
  exists r : TargetAvgResult,
    Trading.calcRequiredQtyForTargetAvg (Fin cp) (Fin cq) (Fin np) (Fin t)
    = Ok r /\
    (np == t -> requiredQty r = zero) /\
    (~ np == t -> solvedQty cp cq t np < 0 -> requiredQty r = zero) /\
    (~ np == t -> ~ solvedQty cp cq t np < 0 ->
     requiredQty r =n= Fin (solvedQty cp cq t np)).
Proof.
  unfold Trading.calcRequiredQtyForTargetAvg.
  rewrite !assertPositive_Ok by (simpl; assumption). cbn [bind].
  destruct (_ || _)%bool eqn:G.
  - (* the target lies outside [min, max] *)
    apply range_guard in G.
    eexists; split; [reflexivity |]. cbn [requiredQty].
    repeat split; try reflexivity.
    intros E Hx. exfalso. apply Hx. now apply solved_negative.
  - assert (Hin : ~ ((t < cp /\ t < np) \/ (cp < t /\ np < t))).
    { intros H. apply range_guard in H. congruence. }
    cbn [Num.sub Num.seq Num.mul]. unfold zero.
    destruct (Qeqb_spec (np - t) 0) as [E0 | E0].
    + eexists; split; [reflexivity |]. cbn [requiredQty].
      repeat split; try reflexivity; intros E; exfalso; apply E; lra.
    + rewrite div_Fin by assumption. fold (solvedQty cp cq t np).
      eexists; split; [reflexivity |]. cbn [requiredQty Num.max Num.lt].
      assert (E : ~ np == t) by lra.
      repeat split.
      * intros E'. tauto.
      * intros _ Hx. exfalso. apply Hin. now apply solved_negative.
      * intros _ Hx.
        destruct (Qltb_spec 0 (solvedQty cp cq t np)); simpl; lra.
Qed.

End TargetAvg.



(** The other two examples of the specification: 100 x 10 towards 105 at
    a new price of 105 is invalid; towards 90 at 80 it takes 10 more. *)
Example qtyForTargetAvg_invalid_example :
  Trading.qtyForTargetAvg (Fin 100) (Fin 10) (Fin 105) (Fin 105)
  = Ok Trading.invalid.
Proof. reflexivity. Qed.

Example qtyForTargetAvg_ok_example :
  exists x : Q,
    Trading.qtyForTargetAvg (Fin 100) (Fin 10) (Fin 90) (Fin 80)
    = Ok (Trading.ok (Fin x)) /\ x == 10.
Proof. eexists; split; reflexivity. Qed.


(* ------------------------------------------------------------------ *)
(** ** Liquidation price *)

Lemma min_Fin (a b : Q) : Num.min (Fin a) (Fin b) = Fin (Qmin a b).
Proof.
  cbn [Num.min Num.lt]. unfold Qmin, GenericMinMax.gmin.
  destruct (Qltb_spec b a) as [H | H], (a ?= b) eqn:C;
    try reflexivity; exfalso.
  - apply Qeq_alt in C. lra.
  - apply Qlt_alt in C. lra.
  - apply Qgt_alt in C. lra.
Qed.

Lemma max_Fin (a b : Q) : Num.max (Fin a) (Fin b) = Fin (Qmax a b).
Proof.
  cbn [Num.max Num.lt]. unfold Qmax, GenericMinMax.gmax.
  destruct (Qltb_spec a b) as [H | H], (a ?= b) eqn:C;
    try reflexivity; exfalso.
  - apply Qeq_alt in C. lra.
  - apply Qgt_alt in C. lra.
  - apply Qlt_alt in C. lra.
Qed.

Lemma clamp_Fin (n lo hi : Q) :
  Utils.clamp (Fin n) (Fin lo) (Fin hi) = Fin (Qmin hi (Qmax lo n)).
Proof. unfold Utils.clamp. now rewrite max_Fin, min_Fin. Qed.

Section Liquidation.
  Variables (e lev : Q) (mo : option number) (m : Q).
  Hypothesis entry_pos : 0 < e.
  Hypothesis lev_pos : 0 < lev.
  Hypothesis mmr_val : nullish mo (Fin (5 # 1000)) = Fin m.
  Hypothesis mmr_nonneg : 0 <= m.

Lemma calcLiquidationPrice_long :
  exists r : LiquidationResult,
    Trading.calcLiquidationPrice
      {| liq_side := long; liq_entryPrice := Fin e; leverage := Fin lev;
         mmr := mo |} = Ok r /\
    liquidationPrice r
    = Fin (Qmin maxSafe (Qmax 0 (Qmin (e * (1 - 1 / lev + m)) e))).
Proof.
  unfold Trading.calcLiquidationPrice.
  cbn [liq_side liq_entryPrice leverage mmr]. rewrite mmr_val.
  rewrite !assertPositive_Ok, assertNonNegative_Ok by (simpl; assumption).
  cbn [bind]. unfold one. rewrite div_Fin by lra.
  cbn [Num.sub Num.add Num.mul].
  rewrite min_Fin. unfold zero, Num.MAX_SAFE_INTEGER. rewrite clamp_Fin.
  eexists; split; reflexivity.
Qed.

Lemma calcLiquidationPrice_short :
  exists r : LiquidationResult,
    Trading.calcLiquidationPrice
      {| liq_side := short; liq_entryPrice := Fin e; leverage := Fin lev;
         mmr := mo |} = Ok r /\
    liquidationPrice r
    = Fin (Qmin maxSafe (Qmax 0 (Qmax (e * (1 + 1 / lev - m)) e))).
Proof.
  unfold Trading.calcLiquidationPrice.
  cbn [liq_side liq_entryPrice leverage mmr]. rewrite mmr_val.
  rewrite !assertPositive_Ok, assertNonNegative_Ok by (simpl; assumption).
  cbn [bind]. unfold one. rewrite div_Fin by lra.
  cbn [Num.sub Num.add Num.mul].
  rewrite max_Fin. unfold zero, Num.MAX_SAFE_INTEGER. rewrite clamp_Fin.
  eexists; split; reflexivity.
Qed.


End Liquidation.



(* ------------------------------------------------------------------ *)
(** ** Drawdown breach price *)

Lemma gt_zero_Fin (q : Q) : 0 < q -> (Fin q >? zero)%num = true.
Proof. intros H. unfold Num.gt, zero. simpl. qtests. Qed.

Lemma gt_zero_true (n : number) :
  (n >? zero)%num = true <-> ~ nanOrNonPositive n.
Proof.
  unfold Num.gt, zero.
  destruct n as [ | | | q]; simpl; try (split; [discriminate | tauto]).
  - split; [tauto | reflexivity].
  - destruct (Qltb_spec 0 q); split; intros; try discriminate;
      try reflexivity; lra.
Qed.

Lemma gt_zero_false (n : number) :
  (n >? zero)%num = false <-> nanOrNonPositive n.
Proof.
  unfold Num.gt, zero.
  destruct n as [ | | | q]; simpl; try (split; [tauto | reflexivity]).
  - split; [discriminate | tauto].
  - destruct (Qltb_spec 0 q); split; intros; try discriminate;
      try reflexivity; lra.
Qed.

Lemma finite_positive (n : number) :
  Num.isFinite n && (n >? zero)%num = true <-> isPositive n.
Proof.
  unfold Num.gt, zero.
  destruct n as [ | | | q]; simpl; try (split; [discriminate | tauto]).
  destruct (Qltb_spec 0 q); split; intros; try discriminate;
    try reflexivity; lra.
Qed.

Lemma clampNonNegative_Fin (q : Q) :
  0 < q -> PropMath.clampNonNegative (Fin q) = Fin q.
Proof. intros H. unfold PropMath.clampNonNegative, zero. simpl. qtests. Qed.

Lemma clampNonNegative_rejected (n : number) :
  ~ isPositive n -> PropMath.clampNonNegative n = zero.
Proof.
  unfold PropMath.clampNonNegative, zero.
  destruct n as [ | | | q]; simpl; try reflexivity.
  intros H. qtests.
Qed.

Section Breach.
  Variables (side : Side) (a q rd : Q).
  Hypothesis entry_pos : 0 < a.
  Hypothesis qty_pos : 0 < q.
  Hypothesis drawdown_pos : 0 < rd.

Lemma breachPrice_futures (pv : Q) (args : PropFirm.Instrument) :
  0 < pv -> PropFirm.pointValueUsd args = Some (Fin pv) ->
  exists r : PropFirm.Breach,
    PropFirm.breachPrice PropFirm.futures side (Fin a) (Fin q) (Fin rd) args
    = Ok r /\
    PropFirm.maxAdverse r = Fin (rd / (pv * q)) /\
    PropFirm.unit r = PropFirm.points /\
    PropFirm.breach r =n= Fin (adverse side a (rd / (pv * q))).
Proof.
  intros Hpv Ea. unfold PropFirm.breachPrice.
  rewrite !gt_zero_Fin by assumption. cbn [andb negb]. rewrite Ea.
  rewrite gt_zero_Fin by assumption. cbn [negb Num.mul].
  rewrite div_Fin by nra.
  eexists; split; [reflexivity |].
  cbn [PropFirm.maxAdverse PropFirm.unit PropFirm.breach].
  repeat split. destruct side; simpl; lra.
Qed.

Lemma breachPrice_forex (ps pvl : Q) (args : PropFirm.Instrument) :
  0 < ps -> 0 < pvl ->
  PropFirm.pipSize args = Some (Fin ps) ->
  PropFirm.pipValueUsd args = Some (Fin pvl) ->
  exists r : PropFirm.Breach,
    PropFirm.breachPrice PropFirm.forex side (Fin a) (Fin q) (Fin rd) args
    = Ok r /\
    PropFirm.maxAdverse r = Fin (rd / (pvl * q)) /\
    PropFirm.unit r = PropFirm.pips /\
    PropFirm.breach r =n= Fin (adverse side a (rd / (pvl * q) * ps)).
Proof.
  intros Hps Hpvl Es Ev. unfold PropFirm.breachPrice.
  rewrite !gt_zero_Fin by assumption. cbn [andb negb]. rewrite Es, Ev.
  rewrite !gt_zero_Fin by assumption. cbn [andb negb Num.mul].
  rewrite div_Fin by nra.
  eexists; split; [reflexivity |].
  cbn [PropFirm.maxAdverse PropFirm.unit PropFirm.breach].
  repeat split. destruct side; simpl; lra.
Qed.

Lemma futuresBreachPrice_formula (pv : Q) (spec : PropMath.FuturesSpec) :
  0 < pv -> PropMath.derivePointValueUsd spec = Fin pv ->
  PropMath.maxAdversePoints
    (PropMath.futuresBreachPrice side (Fin a) (Fin q) (Fin rd) spec)
  = Fin (rd / (pv * q)) /\
  PropMath.futures_breachPrice
    (PropMath.futuresBreachPrice side (Fin a) (Fin q) (Fin rd) spec)
  = Fin (adverse side a (rd / (pv * q))).
Proof.
  intros Hpv Epv. unfold PropMath.futuresBreachPrice.
  cbn [PropMath.maxAdversePoints PropMath.futures_breachPrice].
  rewrite Epv, !clampNonNegative_Fin by assumption. cbn [Num.mul].
  rewrite gt_zero_Fin by nra. rewrite div_Fin by nra.
  destruct side; split; reflexivity.
Qed.

Lemma forexBreachPrice_formula (ps pvl : Q) :
  0 < ps -> 0 < pvl ->
  PropMath.maxAdversePips
    (PropMath.forexBreachPrice side (Fin a) (Fin q) (Fin rd)
       {| PropMath.pipSize := Fin ps; PropMath.pipValueUsd := Fin pvl |})
  = Fin (rd / (pvl * q)) /\
  PropMath.forex_breachPrice
    (PropMath.forexBreachPrice side (Fin a) (Fin q) (Fin rd)
       {| PropMath.pipSize := Fin ps; PropMath.pipValueUsd := Fin pvl |})
  = Fin (adverse side a (rd / (pvl * q) * ps)).
Proof.
  intros Hps Hpvl. unfold PropMath.forexBreachPrice.
  cbn [PropMath.maxAdversePips PropMath.forex_breachPrice
       PropMath.pipSize PropMath.pipValueUsd].
  rewrite !clampNonNegative_Fin by assumption. cbn [Num.mul].
  rewrite gt_zero_Fin by nra. rewrite div_Fin by nra.
  destruct side; split; reflexivity.
Qed.

End Breach.



(* ------------------------------------------------------------------ *)
(** ** Effective remaining allowance *)

Lemma isPositiveP (n : number) :
  reflect (isPositive n) (Num.isFinite n && (n >? zero)%num).
Proof. apply iff_reflect. symmetry. apply finite_positive. Qed.

Lemma effectiveRemaining_cases (a b : number) :
  PropFirm.effectiveRemaining a b
  = if Num.isFinite a && (a >? zero)%num
    then (if Num.isFinite b && (b >? zero)%num then Num.min a b else a)
    else (if Num.isFinite b && (b >? zero)%num then b else NaN).
Proof.
  unfold PropFirm.effectiveRemaining.
  destruct (Num.isFinite a), (a >? zero)%num, (Num.isFinite b), (b >? zero)%num;
    reflexivity.
Qed.

(** C5: when both ceilings are finite and positive the effective
    remaining allowance is their minimum; when exactly one is, it is that
    one; when neither is, the allowance is NaN and the page's breach value
    is null, whatever the other inputs. *)
Theorem effectiveRemaining_selection (a b : number) :
  (isPositive a -> isPositive b ->
     PropFirm.effectiveRemaining a b = Num.min a b /\
     exists x y : Q,
       a = Fin x /\ b = Fin y /\
       PropFirm.effectiveRemaining a b = Fin (Qmin x y)) /\
  (isPositive a -> ~ isPositive b -> PropFirm.effectiveRemaining a b = a) /\
  (~ isPositive a -> isPositive b -> PropFirm.effectiveRemaining a b = b) /\
  (~ isPositive a -> ~ isPositive b ->
     PropFirm.effectiveRemaining a b = NaN /\
     forall avg mode side args,
       PropFirm.breachMemo avg mode side (PropFirm.effectiveRemaining a b) args
       = None).
Proof.
  rewrite effectiveRemaining_cases.
  destruct (isPositiveP a) as [Pa | Pa], (isPositiveP b) as [Pb | Pb];
    repeat apply conj; intros Ha Hb; try contradiction; try reflexivity.
  - split; [reflexivity |].
    destruct (isPositive_inv _ Pa) as (x & -> & _).
    destruct (isPositive_inv _ Pb) as (y & -> & _).
    exists x, y. rewrite min_Fin. auto.
  - split; [reflexivity |].
    intros avg mode side args. unfold PropFirm.breachMemo.
    destruct avg; reflexivity.
Qed.

(** The selection example of the specification: 500 and 300 give 300. *)
Lemma effectiveRemaining_selection_witness :
  PropFirm.effectiveRemaining (Fin 500) (Fin 300) = Num.min (Fin 500) (Fin 300)
  /\ Num.min (Fin 500) (Fin 300) = Fin 300.
Proof.
  split; [| reflexivity].
  refine (proj1 (proj1 (@effectiveRemaining_selection (Fin 500) (Fin 300)) _ _));
    reflexivity.
Defined.

(* ------------------------------------------------------------------ *)
(** ** Invalid breach queries *)

Lemma throws_Throw (A : Type) (msg : string) : throws (@Throw A msg).
Proof. now exists msg. Qed.

Lemma throws_Ok (A : Type) (a : A) : ~ throws (Ok a).
Proof. intros (msg & H). discriminate. Qed.

Lemma catchNull_None (A : Type) (c : result A) :
  catchNull c = None <-> throws c.
Proof.
  destruct c; simpl; split; intros H; try discriminate.
  - now apply throws_Ok in H.
  - apply throws_Throw.
  - reflexivity.
Qed.

(** Decide the tests [n > 0] in sight, keeping what each outcome says of
    [n]. *)
Ltac gt_tests :=
  repeat match goal with
    | |- context [(?n >? zero)%num] =>
        let E := fresh "E" in
        destruct (n >? zero)%num eqn:E;
        [apply gt_zero_true in E | apply gt_zero_false in E]
    end;
  cbn [andb negb].

Lemma breachPrice_throws (mode : PropFirm.Mode) (side : Side)
  (avgEntry qty remainingDrawdownUsd : number) (args : PropFirm.Instrument) :
  throws (PropFirm.breachPrice mode side avgEntry qty remainingDrawdownUsd args)
  <-> nanOrNonPositive avgEntry \/ nanOrNonPositive qty
      \/ nanOrNonPositive remainingDrawdownUsd
      \/ instrumentRejected mode args.
Proof.
  unfold PropFirm.breachPrice, instrumentRejected, absentOrRejected.
  destruct mode, (PropFirm.pointValueUsd args) as [pv |],
    (PropFirm.pipSize args) as [ps |], (PropFirm.pipValueUsd args) as [pvl |];
    gt_tests;
    (split; [intros H; try (apply throws_Ok in H; contradiction); tauto
            | intros H; try apply throws_Throw; tauto]).
Qed.

Lemma breachPrice_message (mode : PropFirm.Mode) (side : Side)
  (avgEntry qty remainingDrawdownUsd : number) (args : PropFirm.Instrument) :
  nanOrNonPositive avgEntry \/ nanOrNonPositive qty
  \/ nanOrNonPositive remainingDrawdownUsd ->
  PropFirm.breachPrice mode side avgEntry qty remainingDrawdownUsd args
  = Throw "invalid".
Proof.
  unfold PropFirm.breachPrice. gt_tests; try reflexivity; tauto.
Qed.

Lemma safeDiv_finite (n d : number) : exists q, PropMath.safeDiv n d = Fin q.
Proof.
  unfold PropMath.safeDiv, zero.
  destruct n as [ | | | x], d as [ | | | y]; simpl; eauto.
  destruct (Qeqb_spec y 0); simpl; eauto.
Qed.

Lemma derivePointValueUsd_finite (spec : PropMath.FuturesSpec) :
  exists pv, PropMath.derivePointValueUsd spec = Fin pv.
Proof.
  unfold PropMath.derivePointValueUsd, Num.gt, zero.
  destruct (PropMath.pointValueUsd spec) as [[ | | | pv] |]; simpl;
    try apply safeDiv_finite.
  destruct (Qltb_spec 0 pv); eauto using safeDiv_finite.
Qed.

Lemma sub_zero_eqv (a : number) (z : Q) : z == 0 -> (a - Fin z)%num =n= a.
Proof. intros E. destruct a; simpl; auto. lra. Qed.

Lemma add_zero_eqv (a : number) (z : Q) : z == 0 -> (a + Fin z)%num =n= a.
Proof. intros E. destruct a; simpl; auto. lra. Qed.

(** The maximum adverse move of prop.ts on a rejected size or drawdown. *)
Lemma adverse_move_default (value size drawdown : number) :
  ~ isPositive size \/ ~ isPositive drawdown ->
  exists z : Q,
    (if (value * PropMath.clampNonNegative size >? zero)%num
     then (PropMath.clampNonNegative drawdown
           / (value * PropMath.clampNonNegative size))%num
     else zero) = Fin z /\ z == 0.
Proof.
  intros H.
  destruct (isPositive_dec size) as [Ps | Ps].
  - assert (Pd : ~ isPositive drawdown) by tauto.
    rewrite (clampNonNegative_rejected _ Pd).
    destruct (isPositive_inv _ Ps) as (l & -> & Hl).
    rewrite clampNonNegative_Fin by assumption. unfold zero, Num.gt.
    destruct value as [ | | | v]; simpl;
      try (exists 0; split; reflexivity).
    + destruct (Qeqb_spec l 0); [lra |].
      destruct (Qltb_spec 0 l); simpl; [| lra].
      exists 0; split; reflexivity.
    + destruct (Qeqb_spec l 0); [lra |].
      destruct (Qltb_spec l 0); simpl; [lra |].
      exists 0; split; reflexivity.
    + destruct (Qltb_spec 0 (v * l)); [| exists 0; split; reflexivity].
      destruct (Qeqb_spec (v * l) 0); [lra |].
      eexists; split; [reflexivity |]. unfold Qdiv. ring.
  - rewrite (clampNonNegative_rejected _ Ps). unfold zero, Num.gt.
    exists 0. split; [| reflexivity].
    destruct value as [ | | | v]; simpl; try reflexivity.
    destruct (Qltb_spec 0 (v * 0)); [lra | reflexivity].
Qed.

Lemma futuresBreachPrice_default (side : Side)
  (avgEntry contracts remainingDrawdownUsd : number) (spec : PropMath.FuturesSpec) :
  ~ isPositive contracts \/ ~ isPositive remainingDrawdownUsd ->
  PropMath.maxAdversePoints
    (PropMath.futuresBreachPrice side avgEntry contracts remainingDrawdownUsd spec)
  =n= zero /\
  PropMath.futures_breachPrice
    (PropMath.futuresBreachPrice side avgEntry contracts remainingDrawdownUsd spec)
  =n= avgEntry.
Proof.
  intros H. unfold PropMath.futuresBreachPrice.
  cbn [PropMath.maxAdversePoints PropMath.futures_breachPrice].
  destruct (adverse_move_default (PropMath.derivePointValueUsd spec) _ _ H)
    as (z & -> & Ez).
  split; [exact Ez |].
  destruct side; [now apply sub_zero_eqv | now apply add_zero_eqv].
Qed.

Lemma forexBreachPrice_default (side : Side)
  (avgEntry lots remainingDrawdownUsd : number) (spec : PropMath.ForexSpec) :
  ~ isPositive lots \/ ~ isPositive remainingDrawdownUsd ->
  PropMath.maxAdversePips
    (PropMath.forexBreachPrice side avgEntry lots remainingDrawdownUsd spec)
  =n= zero /\
  (Num.isFinite (PropMath.pipSize spec) = true ->
   PropMath.forex_breachPrice
     (PropMath.forexBreachPrice side avgEntry lots remainingDrawdownUsd spec)
   =n= avgEntry).
Proof.
  intros H. unfold PropMath.forexBreachPrice.
  cbn [PropMath.maxAdversePips PropMath.forex_breachPrice].
  destruct (adverse_move_default (PropMath.pipValueUsd spec) _ _ H)
    as (z & -> & Ez).
  split; [exact Ez |].
  destruct (PropMath.pipSize spec) as [ | | | ps]; try discriminate.
  intros _. cbn [Num.mul].
  destruct side; [apply sub_zero_eqv | apply add_zero_eqv]; rewrite Ez; lra.
Qed.




(* ------------------------------------------------------------------ *)
(** ** Input validation *)

(** Decide every assertion in sight. *)
Ltac validate :=
  repeat match goal with
    | |- context [Utils.assertPositive ?name ?n] =>
        let P := fresh "P" in
        destruct (isPositive_dec n) as [P | P];
        [rewrite (assertPositive_Ok name n P)
        | rewrite (assertPositive_Throw name n P)];
        cbn [bind]
    | |- context [Utils.assertNonNegative ?name ?n] =>
        let P := fresh "P" in
        destruct (isNonNegative_dec n) as [P | P];
        [rewrite (assertNonNegative_Ok name n P)
        | rewrite (assertNonNegative_Throw name n P)];
        cbn [bind]
    end.

(** Settle [throws c <-> ~ valid] once [c] is an outcome. *)
Ltac settle :=
  split;
  [ intros H; try (apply throws_Ok in H; contradiction); tauto
  | intros H; try apply throws_Throw; tauto ].

Lemma calcPnl_throws (i : PnlInput) :
  throws (Trading.calcPnl i)
  <-> ~ (isPositive (entryPrice i) /\ isPositive (exitPrice i)
         /\ isPositive (quantity i) /\ isNonNegative (nullish (feeRate i) zero)).
Proof. unfold Trading.calcPnl. validate; settle. Qed.

Lemma calcLiquidationPrice_throws (i : LiquidationInput) :
  throws (Trading.calcLiquidationPrice i)
  <-> ~ (isPositive (liq_entryPrice i) /\ isPositive (leverage i)
         /\ isNonNegative (nullish (mmr i) (Fin (5 # 1000)))).
Proof. unfold Trading.calcLiquidationPrice. validate; settle. Qed.

Lemma compareAvgPnl_throws (side : Side)
  (initialPrice initialQty addedPrice addedQty marketPrice : number) :
  throws (Trading.compareAvgPnl side initialPrice initialQty
            addedPrice addedQty marketPrice)
  <-> ~ (isPositive initialPrice /\ isPositive initialQty /\ isPositive addedPrice
         /\ isPositive addedQty /\ isPositive marketPrice).
Proof. unfold Trading.compareAvgPnl. validate; settle. Qed.

Lemma qtyForTargetAvg_throws (currentPrice currentQty targetAvg newPrice : number) :
  throws (Trading.qtyForTargetAvg currentPrice currentQty targetAvg newPrice)
  <-> ~ (isPositive currentPrice /\ isPositive currentQty
         /\ isPositive targetAvg /\ isPositive newPrice).
Proof.
  unfold Trading.qtyForTargetAvg. validate; try settle.
  destruct (_ === _)%num; [settle |].
  destruct (_ <? _)%num; settle.
Qed.

Lemma calcRequiredQtyForTargetAvg_throws
  (currentAvg currentQty newPrice targetAvg : number) :
  throws (Trading.calcRequiredQtyForTargetAvg currentAvg currentQty
            newPrice targetAvg)
  <-> ~ (isPositive currentAvg /\ isPositive currentQty
         /\ isPositive newPrice /\ isPositive targetAvg).
Proof.
  unfold Trading.calcRequiredQtyForTargetAvg. validate; try settle.
  destruct (_ || _)%bool; [settle |].
  destruct (_ === _)%num; settle.
Qed.

(** A leg the loop of [calcAvgEntry] rejects. *)
Lemma avgEntryLoop_throws (legs : list AvgEntryLeg) (totalQty totalCost : number) :
  throws (Trading.avgEntryLoop legs totalQty totalCost)
  <-> Exists (fun leg => ~ isPositive (price leg) \/ ~ isPositive (leg_quantity leg))
        legs.
Proof.
  revert totalQty totalCost.
  induction legs as [| leg rest IH]; intros totalQty totalCost;
    cbn [Trading.avgEntryLoop].
  - split; intros H; [now apply throws_Ok in H | inversion H].
  - rewrite Exists_cons. validate; try rewrite IH;
      try (split; [tauto | intros [[H | H] | H]; tauto]);
      (split; [tauto | intros _; apply throws_Throw]).
Qed.

Lemma calcAvgEntry_throws (legs : list AvgEntryLeg) :
  throws (Trading.calcAvgEntry legs)
  <-> legs = []
      \/ Exists (fun leg => ~ isPositive (price leg) \/ ~ isPositive (leg_quantity leg))
           legs.
Proof.
  unfold Trading.calcAvgEntry.
  destruct legs as [| leg rest].
  - split; [auto | intros _; apply throws_Throw].
  - rewrite <- (avgEntryLoop_throws (leg :: rest) zero zero).
    destruct (Trading.avgEntryLoop (leg :: rest) zero zero) as [acc | msg];
      cbn [bind].
    + split; [intros H; now apply throws_Ok in H | intros [H | H]];
        [discriminate | now apply throws_Ok in H].
    + split; [intros _; right | intros _]; apply throws_Throw.
Qed.

Lemma calcAvg2Leg_throws (p1 q1 p2 q2 : number) :
  throws (PropFirm.calcAvg2Leg p1 q1 p2 q2)
  <-> nanOrNonPositive p1 \/ nanOrNonPositive q1
      \/ nanOrNonPositive p2 \/ nanOrNonPositive q2.
Proof. unfold PropFirm.calcAvg2Leg. gt_tests; settle. Qed.

Lemma pnlAtPrice_throws (mode : PropFirm.Mode) (side : Side)
  (entryPrice qty markPrice : number) (args : PropFirm.Instrument) :
  throws (PropFirm.pnlAtPrice mode side entryPrice qty markPrice args)
  <-> nanOrNonPositive entryPrice \/ nanOrNonPositive markPrice
      \/ nanOrNonPositive qty \/ instrumentRejected mode args.
Proof.
  unfold PropFirm.pnlAtPrice, instrumentRejected, absentOrRejected.
  destruct mode, (PropFirm.pointValueUsd args) as [pv |],
    (PropFirm.pipSize args) as [ps |], (PropFirm.pipValueUsd args) as [pvl |];
    gt_tests; settle.
Qed.

(** C7 (as amended): [calcPnl], and every calculation of trading.ts, which
    all validate through [assertPositive] and [assertNonNegative], throws,
    so that the page holds null and not a zero or default, exactly when some
    required input is not finite or violates its positivity or
    non-negativity constraint.  The calculations of the prop-firm page
    ([calcAvg2Leg], [pnlAtPrice], [breachPrice]) throw exactly when some
    required input is NaN, absent or not greater than 0.  In both families
    NaN is treated as a non-positive number is. *)
Theorem validation_failures :
  (forall i : PnlInput,
      throws (Trading.calcPnl i)
      <-> ~ (isPositive (entryPrice i) /\ isPositive (exitPrice i)
             /\ isPositive (quantity i)
             /\ isNonNegative (nullish (feeRate i) zero))) /\
  (forall side entryPrice exitPrice quantity feeRate,
      Page.pnl side entryPrice exitPrice quantity feeRate = None
      <-> ~ (isPositive entryPrice /\ isPositive exitPrice
             /\ isPositive quantity /\ isNonNegative feeRate)) /\
  (forall i : LiquidationInput,
      throws (Trading.calcLiquidationPrice i)
      <-> ~ (isPositive (liq_entryPrice i) /\ isPositive (leverage i)
             /\ isNonNegative (nullish (mmr i) (Fin (5 # 1000))))) /\
  (forall legs : list AvgEntryLeg,
      throws (Trading.calcAvgEntry legs)
      <-> legs = []
          \/ Exists (fun leg => ~ isPositive (price leg)
                                \/ ~ isPositive (leg_quantity leg)) legs) /\
  (forall side initialPrice initialQty addedPrice addedQty marketPrice,
      throws (Trading.compareAvgPnl side initialPrice initialQty
                addedPrice addedQty marketPrice)
      <-> ~ (isPositive initialPrice /\ isPositive initialQty
             /\ isPositive addedPrice /\ isPositive addedQty
             /\ isPositive marketPrice)) /\
  (forall currentPrice currentQty targetAvg newPrice,
      throws (Trading.qtyForTargetAvg currentPrice currentQty targetAvg newPrice)
      <-> ~ (isPositive currentPrice /\ isPositive currentQty
             /\ isPositive targetAvg /\ isPositive newPrice)) /\
  (forall currentAvg currentQty newPrice targetAvg,
      throws (Trading.calcRequiredQtyForTargetAvg currentAvg currentQty
                newPrice targetAvg)
      <-> ~ (isPositive currentAvg /\ isPositive currentQty
             /\ isPositive newPrice /\ isPositive targetAvg)) /\
  (forall p1 q1 p2 q2,
      throws (PropFirm.calcAvg2Leg p1 q1 p2 q2)
      <-> nanOrNonPositive p1 \/ nanOrNonPositive q1
          \/ nanOrNonPositive p2 \/ nanOrNonPositive q2) /\
  (forall mode side entryPrice qty markPrice args,
      throws (PropFirm.pnlAtPrice mode side entryPrice qty markPrice args)
      <-> nanOrNonPositive entryPrice \/ nanOrNonPositive markPrice
          \/ nanOrNonPositive qty \/ instrumentRejected mode args) /\
  (forall mode side avgEntry qty remaining args,
      throws (PropFirm.breachPrice mode side avgEntry qty remaining args)
      <-> nanOrNonPositive avgEntry \/ nanOrNonPositive qty
          \/ nanOrNonPositive remaining \/ instrumentRejected mode args) /\
  (forall (name : string) (q : Q),
      q <= 0 ->
      Utils.assertPositive name NaN = Utils.assertPositive name (Fin q)) /\
  (forall q : Q,
      q <= 0 -> (NaN >? zero)%num = (Fin q >? zero)%num).
Proof.
  repeat apply conj.
  - exact calcPnl_throws.
  - intros. unfold Page.pnl. rewrite catchNull_None. apply calcPnl_throws.
  - exact calcLiquidationPrice_throws.
  - exact calcAvgEntry_throws.
  - exact compareAvgPnl_throws.
  - exact qtyForTargetAvg_throws.
  - exact calcRequiredQtyForTargetAvg_throws.
  - exact calcAvg2Leg_throws.
  - exact pnlAtPrice_throws.
  - exact breachPrice_throws.
  - intros name q Hq.
    rewrite !assertPositive_Throw; [reflexivity | simpl; lra | simpl; tauto].
  - intros q Hq. symmetry. apply gt_zero_false. exact Hq.
Qed.

(** With the entry price still empty (NaN) [calcPnl] throws. *)
Lemma validation_failures_witness :
  throws
    (Trading.calcPnl
       {| pnl_side := long; entryPrice := NaN; exitPrice := Fin 110;
          quantity := Fin 1; feeRate := Some (Fin (4 # 10000)) |}) /\
  Utils.assertPositive "entryPrice" NaN
  = Utils.assertPositive "entryPrice" (Fin (-1)).
Proof.
  destruct validation_failures as (Hpnl & H).
  split.
  - apply Hpnl. simpl. tauto.
  - apply H. vm_compute. congruence.
Defined.

(** Calculations that return a result on an input that is not finite or
    not positive: [calcAvg2Leg] accepts Infinity, [futuresRiskToStopUsd]
    a negative stop price, and [calcTwoLegAverage] answers NaN legs with
    zeros. *)
Lemma validation_gaps :
  PropFirm.calcAvg2Leg PInf (Fin 1) (Fin 1) (Fin 1)
  = Ok {| PropFirm.totalQty := Fin (1 + 1);
          PropFirm.avgPrice := PInf;
          PropFirm.totalCost := PInf |} /\
  PropMath.futures_riskUsd
    (PropMath.futuresRiskToStopUsd (Fin 100) (Fin (-5)) (Fin 1) ES)
  =n= Fin 5250 /\
  PropMath.calcTwoLegAverage
    {| PropMath.entry1Price := NaN; PropMath.entry1Qty := NaN;
       PropMath.entry2Price := None; PropMath.entry2Qty := None |}
  = {| PropMath.totalQty := Fin (0 + 0); PropMath.avgEntry := zero;
       PropMath.avgShift := NaN; PropMath.hasSecondLeg := false |}.
Proof. repeat split. Qed.

(* ------------------------------------------------------------------ *)
(** ** Average entry *)

Lemma avgEntryLoop_sums (legs : list (Q * Q)) :
  Forall positiveLeg legs ->
  forall aq ac : Q,
  exists tq tc : Q,
    Trading.avgEntryLoop (map leg legs) (Fin aq) (Fin ac) = Ok (Fin tq, Fin tc) /\
    tq == aq + sumQty legs /\ tc == ac + sumCost legs.
Proof.
  induction 1 as [| pq rest [Hp Hq] _ IH]; intros aq ac.
  - exists aq, ac. simpl. repeat split; ring.
  - cbn [map Trading.avgEntryLoop leg price leg_quantity].
    rewrite !assertPositive_Ok by assumption. cbn [bind Num.add Num.mul].
    destruct (IH (aq + snd pq) (ac + fst pq * snd pq)) as (tq & tc & E & Eq & Ec).
    exists tq, tc. split; [exact E |].
    cbn [sumQty sumCost]. rewrite Eq, Ec. split; ring.
Qed.

Lemma sumQty_nonneg (legs : list (Q * Q)) :
  Forall positiveLeg legs -> 0 <= sumQty legs.
Proof.
  induction 1 as [| pq rest [_ Hq] _ IH]; cbn [sumQty]; lra.
Qed.

Lemma sumQty_pos (pq : Q * Q) (rest : list (Q * Q)) :
  Forall positiveLeg (pq :: rest) -> 0 < sumQty (pq :: rest).
Proof.
  intros H. inversion H as [| ? ? [_ Hq] Hrest]; subst.
  apply sumQty_nonneg in Hrest. cbn [sumQty]. lra.
Qed.

(** A common lower (upper) bound of the prices bounds the cost, and the
    bound is attained only when every price equals it. *)
Lemma sumCost_lower (lo : Q) (legs : list (Q * Q)) :
  Forall positiveLeg legs -> Forall (fun pq => lo <= fst pq) legs ->
  lo * sumQty legs <= sumCost legs /\
  (sumCost legs == lo * sumQty legs -> Forall (fun pq => fst pq == lo) legs).
Proof.
  induction 1 as [| pq rest [_ Hq] _ IH]; intros Hlo.
  - simpl. split; [lra | constructor].
  - inversion Hlo as [| ? ? Hle Hrest]; subst.
    destruct (IH Hrest) as [Hb Heq]. cbn [sumQty sumCost].
    split; [nra |].
    intros E. constructor; [nra |]. apply Heq. nra.
Qed.

Lemma sumCost_upper (hi : Q) (legs : list (Q * Q)) :
  Forall positiveLeg legs -> Forall (fun pq => fst pq <= hi) legs ->
  sumCost legs <= hi * sumQty legs /\
  (sumCost legs == hi * sumQty legs -> Forall (fun pq => fst pq == hi) legs).
Proof.
  induction 1 as [| pq rest [_ Hq] _ IH]; intros Hhi.
  - simpl. split; [lra | constructor].
  - inversion Hhi as [| ? ? Hle Hrest]; subst.
    destruct (IH Hrest) as [Hb Heq]. cbn [sumQty sumCost].
    split; [nra |].
    intros E. constructor; [nra |]. apply Heq. nra.
Qed.

Lemma minPrice_lower (p q : Q) (rest : list (Q * Q)) :
  Forall (fun pq => minPrice p rest <= fst pq) ((p, q) :: rest).
Proof.
  revert p q. induction rest as [| pq rest IH]; intros p q; cbn [minPrice].
  - constructor; [simpl; lra | constructor].
  - specialize (IH (fst pq) 0).
    pose proof (Q.le_min_l p (minPrice (fst pq) rest)) as Hl.
    pose proof (Q.le_min_r p (minPrice (fst pq) rest)) as Hr.
    constructor; [exact Hl |].
    inversion IH as [| ? ? Hhd Htl]; subst. cbn [fst] in Hhd.
    constructor; [lra |].
    eapply Forall_impl; [| exact Htl]. intros a Ha. cbn beta in *. lra.
Qed.

Lemma maxPrice_upper (p q : Q) (rest : list (Q * Q)) :
  Forall (fun pq => fst pq <= maxPrice p rest) ((p, q) :: rest).
Proof.
  revert p q. induction rest as [| pq rest IH]; intros p q; cbn [maxPrice].
  - constructor; [simpl; lra | constructor].
  - specialize (IH (fst pq) 0).
    pose proof (Q.le_max_l p (maxPrice (fst pq) rest)) as Hl.
    pose proof (Q.le_max_r p (maxPrice (fst pq) rest)) as Hr.
    constructor; [exact Hl |].
    inversion IH as [| ? ? Hhd Htl]; subst. cbn [fst] in Hhd.
    constructor; [lra |].
    eapply Forall_impl; [| exact Htl]. intros a Ha. cbn beta in *. lra.
Qed.

Lemma same_prices (p0 q0 lo : Q) (rest : list (Q * Q)) :
  Forall (fun pq => fst pq == lo) ((p0, q0) :: rest) ->
  Forall (fun pq => fst pq == p0) rest.
Proof.
  intros H. inversion H as [| ? ? Hhd Htl]; subst. cbn [fst] in Hhd.
  eapply Forall_impl; [| exact Htl]. intros a Ha. cbn beta in *. lra.
Qed.



(* ------------------------------------------------------------------ *)
(** ** Optional second leg *)

Lemma hasSecondLeg_true (i : PropMath.TwoLegAverageInput) :
  PropMath.hasSecondLeg (PropMath.calcTwoLegAverage i) = true
  <-> Num.isFinite (nullish (PropMath.entry2Price i) zero) = true
      /\ isPositive (nullish (PropMath.entry2Qty i) zero).
Proof.
  unfold PropMath.calcTwoLegAverage. cbn [PropMath.hasSecondLeg].
  rewrite <- andb_assoc, andb_true_iff, finite_positive. reflexivity.
Qed.

Lemma calcTwoLegAverage_one_leg
  (p1 q1 : Q) (entry2Price entry2Qty : option number) :
  0 < q1 ->
  Num.isFinite (nullish entry2Price zero)
  && Num.isFinite (nullish entry2Qty zero)
  && (nullish entry2Qty zero >? zero)%num = false ->
  PropMath.calcTwoLegAverage
    {| PropMath.entry1Price := Fin p1; PropMath.entry1Qty := Fin q1;
       PropMath.entry2Price := entry2Price;
       PropMath.entry2Qty := entry2Qty |}
  = {| PropMath.totalQty := Fin (q1 + 0);
       PropMath.avgEntry := Fin ((p1 * q1 + 0) / (q1 + 0));
       PropMath.avgShift := Fin ((p1 * q1 + 0) / (q1 + 0) - p1);
       PropMath.hasSecondLeg := false |}.
Proof.
  intros Hq E. unfold PropMath.calcTwoLegAverage.
  cbn [PropMath.entry1Price PropMath.entry1Qty
       PropMath.entry2Price PropMath.entry2Qty].
  rewrite E, clampNonNegative_Fin by assumption.
  unfold zero, Num.gt. cbn [Num.add Num.mul Num.lt].
  destruct (Qltb_spec 0 (q1 + 0)); [| lra].
  rewrite div_Fin by lra. reflexivity.
Qed.




(* ------------------------------------------------------------------ *)
(** ** Comparing the averaged position with the initial one *)

Section Compare.
  Variables (side : Side) (ip iq ap aq m : Q).
  Hypothesis initialPrice_pos : 0 < ip.
  Hypothesis initialQty_pos : 0 < iq.
  Hypothesis addedPrice_pos : 0 < ap.
  Hypothesis addedQty_pos : 0 < aq.
  Hypothesis marketPrice_pos : 0 < m.


End Compare.


(* ================================================================== *)
(** * Further properties of the calculation code *)

(* ------------------------------------------------------------------ *)
(** ** Rounding and clamping (utils.ts, prop.ts) *)

Lemma pow10_pos (d : Z) : 0 < 10 ^ d.
Proof. apply Qpower_0_lt. reflexivity. Qed.

Lemma Qfloor_half (k : Z) : Qfloor (inject_Z k + (1 # 2)) = k.
Proof.
  pose proof (Qfloor_le (inject_Z k + (1 # 2))) as Hle.
  pose proof (Qlt_floor (inject_Z k + (1 # 2))) as Hlt.
  set (j := Qfloor (inject_Z k + (1 # 2))) in *.
  rewrite inject_Z_plus in Hlt. change (inject_Z 1) with 1 in Hlt.
  assert (H1 : inject_Z j < inject_Z (k + 1)).
  { rewrite inject_Z_plus. change (inject_Z 1) with 1. lra. }
  assert (H2 : inject_Z k < inject_Z (j + 1)).
  { rewrite inject_Z_plus. change (inject_Z 1) with 1. lra. }
  rewrite <- Zlt_Qlt in H1, H2. lia.
Qed.

Lemma round_nearest (x : Q) :
  inject_Z (Qfloor (x + (1 # 2))) - (1 # 2) <= x
  /\ x < inject_Z (Qfloor (x + (1 # 2))) + (1 # 2).
Proof.
  pose proof (Qfloor_le (x + (1 # 2))) as Hle.
  pose proof (Qlt_floor (x + (1 # 2))) as Hlt.
  rewrite inject_Z_plus in Hlt. change (inject_Z 1) with 1 in Hlt. lra.
Qed.

Lemma roundTo_Fin (n : Q) (decimals : option Z) :
  Utils.roundTo (Fin n) decimals
  = Fin (inject_Z (Qfloor (n * 10 ^ nullish decimals 2%Z + (1 # 2)))
         / 10 ^ nullish decimals 2%Z).
Proof.
  unfold Utils.roundTo, Num.pow10. cbn [Num.mul Num.round].
  pose proof (pow10_pos (nullish decimals 2%Z)).
  rewrite div_Fin by lra. reflexivity.
Qed.






(** X4: for finite arguments with min <= max, [clamp] returns a value
    between min and max: the number itself when it lies in the range, min
    when it is below and max when it is above; clamping twice is clamping
    once.  With the bounds inverted it returns max whatever the number. *)
Theorem clamp_range (n lo hi : Q) :
  exists c : Q,
    Utils.clamp (Fin n) (Fin lo) (Fin hi) = Fin c /\
    (lo <= hi ->
     lo <= c <= hi /\
     (lo <= n <= hi -> c == n) /\ (n < lo -> c == lo) /\ (hi < n -> c == hi) /\
     Utils.clamp (Fin c) (Fin lo) (Fin hi) =n= Fin c) /\
    (hi < lo -> c == hi).
Proof.
  rewrite clamp_Fin. eexists; split; [reflexivity |].
  set (c := Qmin hi (Qmax lo n)).
  assert (Hc : lo <= hi ->
               lo <= c <= hi /\ (lo <= n <= hi -> c == n)
               /\ (n < lo -> c == lo) /\ (hi < n -> c == hi)).
  { intros Hle. unfold c.
    destruct (Q.max_spec lo n) as [[H1 ->] | [H1 ->]];
      [destruct (Q.min_spec hi n) as [[H2 ->] | [H2 ->]]
      | destruct (Q.min_spec hi lo) as [[H2 ->] | [H2 ->]]];
      repeat split; intros; lra. }
  split.
  - intros Hle. destruct (Hc Hle) as (Hr & Hin & Hlo & Hhi).
    repeat split; try tauto.
    rewrite clamp_Fin. cbn [Num.eqv].
    destruct (Q.max_spec lo c) as [[H1 ->] | [H1 ->]];
      [destruct (Q.min_spec hi c) as [[H2 ->] | [H2 ->]]
      | destruct (Q.min_spec hi lo) as [[H2 ->] | [H2 ->]]]; lra.
  - intros Hinv. unfold c.
    pose proof (Q.le_max_l lo n). apply Q.min_l. lra.
Qed.

Lemma clamp_range_witness :
  exists c : Q,
    Utils.clamp (Fin (-3)) zero Num.MAX_SAFE_INTEGER = Fin c /\ c == 0.
Proof.
  destruct (clamp_range (-3) 0 9007199254740991) as (c & E & H & _).
  exists c. split; [exact E |].
  assert (Hle : 0 <= 9007199254740991) by (vm_compute; congruence).
  destruct (H Hle) as (_ & _ & Hlo & _).
  apply Hlo. reflexivity.
Defined.

(** X5: [clampNonNegative] always returns a finite number that is not
    negative: a finite non-negative number is returned as it is, and every
    other value, NaN and both infinities included, becomes 0; applying it
    twice is applying it once. *)
Theorem clampNonNegative_range (n : number) :
  exists c : Q,
    PropMath.clampNonNegative n = Fin c /\ 0 <= c /\
    (isNonNegative n -> Fin c =n= n) /\
    (~ isNonNegative n -> c == 0) /\
    PropMath.clampNonNegative (Fin c) =n= Fin c.
Proof.
  unfold PropMath.clampNonNegative, zero.
  destruct n as [ | | | q]; cbn [Num.isFinite Num.max Num.lt isNonNegative];
    try (exists 0; repeat split; try tauto; try lra; intros; reflexivity).
  destruct (Qltb_spec 0 q) as [H | H].
  - exists q. repeat split; try lra.
    destruct (Qltb_spec 0 q); simpl; lra.
  - exists 0. repeat split; try lra. simpl. lra.
Qed.

Lemma clampNonNegative_range_witness :
  exists c : Q, PropMath.clampNonNegative NInf = Fin c /\ c == 0.
Proof.
  destruct (clampNonNegative_range NInf) as (c & E & _ & _ & H & _).
  exists c. split; [exact E |]. apply H. simpl. tauto.
Defined.



(* ------------------------------------------------------------------ *)
(** ** PnL: sides and fees (trading.ts) *)

Lemma calcPnl_Ok (side : Side) (e x q f : Q) (fr : option number) :
  0 < e -> 0 < x -> 0 < q -> nullish fr zero = Fin f -> 0 <= f ->
  Trading.calcPnl
    {| pnl_side := side; entryPrice := Fin e; exitPrice := Fin x;
       quantity := Fin q; feeRate := fr |}
  = Ok {| notionalEntry := Fin (e * q);
          notionalExit := Fin (x * q);
          grossPnl := Fin (directional side e x q);
          fees := Fin (f * (e * q + x * q));
          netPnl := Fin (directional side e x q - f * (e * q + x * q));
          roiOnNotionalEntry :=
            Fin ((directional side e x q - f * (e * q + x * q)) / (e * q)) |}.
Proof.
  intros He Hx Hq Ef Hf.
  assert (Hn : ~ e * q == 0) by nra.
  unfold Trading.calcPnl, directional;
    cbn [pnl_side entryPrice exitPrice quantity feeRate].
  rewrite Ef.
  rewrite !assertPositive_Ok, assertNonNegative_Ok by (simpl; assumption).
  cbn [bind].
  destruct side; cbn [Num.mul Num.sub Num.add];
    rewrite div_Fin by exact Hn; reflexivity.
Qed.





(* ------------------------------------------------------------------ *)
(** ** Average entry: order, scale, and the three implementations *)

Lemma calcAvgEntry_Ok (legs : list (Q * Q)) :
  legs <> [] -> Forall positiveLeg legs ->
  exists tq tc : Q,
    Trading.calcAvgEntry (map leg legs)
    = Ok {| totalQty := Fin tq; totalCost := Fin tc;
            avgPrice := Fin (tc / tq) |} /\
    tq == sumQty legs /\ tc == sumCost legs /\ 0 < tq.
Proof.
  intros Hne Hlegs. destruct legs as [| pq rest]; [congruence |].
  destruct (avgEntryLoop_sums _ Hlegs 0 0) as (tq & tc & E & Eq & Ec).
  pose proof (sumQty_pos _ _ Hlegs) as Hpos.
  rewrite Qplus_0_l in Eq, Ec.
  assert (Htq : 0 < tq) by (rewrite Eq; exact Hpos).
  exists tq, tc. repeat split; try assumption.
  unfold Trading.calcAvgEntry. cbn [map]. unfold zero.
  cbn [map] in E. rewrite E. cbn [bind fst snd].
  rewrite div_Fin by lra. reflexivity.
Qed.

Lemma sums_Permutation (legs legs' : list (Q * Q)) :
  Permutation legs legs' ->
  sumQty legs == sumQty legs' /\ sumCost legs == sumCost legs'.
Proof.
  induction 1 as [| pq l l' _ [IHq IHc] | a b l | l l' l'' _ [Hq Hc] _ [Hq' Hc']];
    cbn [sumQty sumCost].
  - split; reflexivity.
  - rewrite IHq, IHc. split; reflexivity.
  - split; ring.
  - split; [rewrite Hq | rewrite Hc]; assumption.
Qed.



Lemma sums_scaleQty (k : Q) (legs : list (Q * Q)) :
  sumQty (scaleQty k legs) == k * sumQty legs
  /\ sumCost (scaleQty k legs) == k * sumCost legs.
Proof.
  induction legs as [| pq rest [IHq IHc]]; cbn [scaleQty map sumQty sumCost fst snd].
  - split; ring.
  - fold (scaleQty k rest). rewrite IHq, IHc. split; ring.
Qed.



Lemma compareAvgPnl_Ok (side : Side) (ip iq ap aq m : Q) :
  0 < ip -> 0 < iq -> 0 < ap -> 0 < aq -> 0 < m ->
  Trading.compareAvgPnl side (Fin ip) (Fin iq) (Fin ap) (Fin aq) (Fin m)
  = Ok {| Trading.cmp_avgPrice := Fin ((ip * iq + ap * aq) / (iq + aq));
          Trading.cmp_totalQty := Fin (iq + aq);
          Trading.pnlOld := Fin (directional side ip m iq);
          Trading.pnlNew :=
            Fin (directional side ((ip * iq + ap * aq) / (iq + aq)) m (iq + aq));
          Trading.delta :=
            Fin (directional side ((ip * iq + ap * aq) / (iq + aq)) m (iq + aq)
                 - directional side ip m iq);
          Trading.verdict :=
            verdictOf (1 # 100000000)
              (directional side ((ip * iq + ap * aq) / (iq + aq)) m (iq + aq)
               - directional side ip m iq) |}.
Proof.
  intros Hip Hiq Hap Haq Hm.
  unfold Trading.compareAvgPnl.
  rewrite !assertPositive_Ok by (simpl; assumption). cbn [bind].
  cbn [Num.add Num.mul]. rewrite div_Fin by lra.
  unfold directional, verdictOf, Trading.tolerance, zero, Num.gt.
  destruct side; cbn [Num.sub Num.mul Num.abs Num.lt]; reflexivity.
Qed.

Lemma added_leg_delta (side : Side) (ip iq ap aq m : Q) :
  0 < iq -> 0 < aq ->
  directional side ((ip * iq + ap * aq) / (iq + aq)) m (iq + aq)
  - directional side ip m iq
  == directional side ap m aq.
Proof.
  intros Hiq Haq. unfold directional. destruct side; field; lra.
Qed.





(* ------------------------------------------------------------------ *)
(** ** Target average: the solved quantity does reach the target *)

Lemma calcAvgEntry_two_legs (p1 q1 p2 q2 : Q) :
  0 < p1 -> 0 < q1 -> 0 < p2 -> 0 < q2 ->
  Trading.calcAvgEntry [leg (p1, q1); leg (p2, q2)]
  = Ok {| totalQty := Fin (0 + q1 + q2);
          totalCost := Fin (0 + p1 * q1 + p2 * q2);
          avgPrice := Fin ((0 + p1 * q1 + p2 * q2) / (0 + q1 + q2)) |}.
Proof.
  intros H1 H2 H3 H4.
  unfold Trading.calcAvgEntry, leg.
  cbn [Trading.avgEntryLoop fst snd price leg_quantity].
  rewrite !assertPositive_Ok by (simpl; assumption).
  unfold zero. cbn [bind Num.add Num.mul fst snd].
  rewrite div_Fin by lra. reflexivity.
Qed.

Lemma blended_average_eq (cp cq t np y : Q) :
  0 < cq -> 0 < y ->
  ((0 + cp * cq + np * y) / (0 + cq + y) == t
   <-> y * (np - t) == cq * (t - cp)).
Proof.
  intros Hcq Hy.
  assert (E : (0 + cp * cq + np * y) / (0 + cq + y) * (0 + cq + y)
              == 0 + cp * cq + np * y) by (field; lra).
  set (a := (0 + cp * cq + np * y) / (0 + cq + y)) in *.
  split; intros H.
  - rewrite H in E. lra.
  - assert (Hd : 0 < 0 + cq + y) by lra.
    assert (E' : (a - t) * (0 + cq + y) == 0) by lra.
    apply Qmult_integral in E'. destruct E' as [E' | E']; lra.
Qed.

Lemma solvedQty_eq (cp cq t np : Q) :
  ~ np == t -> solvedQty cp cq t np * (np - t) == cq * (t - cp).
Proof. intros H. unfold solvedQty. field. lra. Qed.







(* ------------------------------------------------------------------ *)
(** ** Liquidation price: leverage and maintenance margin *)

Lemma Qinv_antitone (a b : Q) : 0 < a -> a <= b -> 1 / b <= 1 / a.
Proof.
  intros Ha Hab.
  apply Qle_shift_div_l; [exact Ha |].
  assert (E : 1 / b * a == a / b) by (field; lra).
  rewrite E. apply Qle_shift_div_r; lra.
Qed.

(** X16: raising the leverage or the maintenance margin rate moves the
    liquidation estimate towards the entry price and never away from it: the
    long liquidation price does not decrease and the short liquidation price
    does not increase. *)
Theorem calcLiquidationPrice_monotone (e lev1 lev2 m1 m2 : Q) :
  0 < e -> 0 < lev1 -> lev1 <= lev2 -> 0 <= m1 -> m1 <= m2 ->
  exists l1 l2 s1 s2 : Q,
    (exists r,
       Trading.calcLiquidationPrice
         {| liq_side := long; liq_entryPrice := Fin e; leverage := Fin lev1;
            mmr := Some (Fin m1) |} = Ok r /\ liquidationPrice r = Fin l1) /\
    (exists r,
       Trading.calcLiquidationPrice
         {| liq_side := long; liq_entryPrice := Fin e; leverage := Fin lev2;
            mmr := Some (Fin m2) |} = Ok r /\ liquidationPrice r = Fin l2) /\
    (exists r,
       Trading.calcLiquidationPrice
         {| liq_side := short; liq_entryPrice := Fin e; leverage := Fin lev1;
            mmr := Some (Fin m1) |} = Ok r /\ liquidationPrice r = Fin s1) /\
    (exists r,
       Trading.calcLiquidationPrice
         {| liq_side := short; liq_entryPrice := Fin e; leverage := Fin lev2;
            mmr := Some (Fin m2) |} = Ok r /\ liquidationPrice r = Fin s2) /\
    l1 <= l2 /\ s2 <= s1.
Proof.
  intros He Hl1 Hl Hm1 Hm.
  assert (Hl2 : 0 < lev2) by lra. assert (Hm2 : 0 <= m2) by lra.
  pose proof (Qinv_antitone lev1 lev2 Hl1 Hl) as Hinv.
  do 4 eexists.
  split; [apply (calcLiquidationPrice_long e lev1 (Some (Fin m1)) m1);
          auto |].
  split; [apply (calcLiquidationPrice_long e lev2 (Some (Fin m2)) m2);
          auto |].
  split; [apply (calcLiquidationPrice_short e lev1 (Some (Fin m1)) m1);
          auto |].
  split; [apply (calcLiquidationPrice_short e lev2 (Some (Fin m2)) m2);
          auto |].
  split.
  - apply Q.min_le_compat_l, Q.max_le_compat_l, Q.min_le_compat_r. nra.
  - apply Q.min_le_compat_l, Q.max_le_compat_l, Q.max_le_compat_r. nra.
Qed.

Lemma calcLiquidationPrice_monotone_witness :
  exists l1 l2 : Q,
    (exists r,
       Trading.calcLiquidationPrice
         {| liq_side := long; liq_entryPrice := Fin 100; leverage := Fin 10;
            mmr := Some (Fin (5 # 1000)) |} = Ok r
       /\ liquidationPrice r = Fin l1) /\
    (exists r,
       Trading.calcLiquidationPrice
         {| liq_side := long; liq_entryPrice := Fin 100; leverage := Fin 50;
            mmr := Some (Fin (5 # 1000)) |} = Ok r
       /\ liquidationPrice r = Fin l2) /\
    l1 <= l2.
Proof.
  destruct (calcLiquidationPrice_monotone 100 10 50 (5 # 1000) (5 # 1000))
    as (l1 & l2 & s1 & s2 & H1 & H2 & _ & _ & H & _);
    try reflexivity; try (vm_compute; congruence).
  exists l1, l2. auto.
Defined.

(* ------------------------------------------------------------------ *)
(** ** Point value (prop.ts and the prop-firm page) *)

Lemma validOverride_dec (o : option number) :
  {validOverride o} + {~ validOverride o}.
Proof.
  destruct o as [pv |]; simpl; [apply isPositive_dec | right; tauto].
Qed.

Lemma le_zero_Fin (q : Q) : 0 < q -> (Fin q <=? zero)%num = false.
Proof. intros H. unfold zero. simpl. qtests. Qed.



(* ------------------------------------------------------------------ *)
(** ** Risk to a stop and the breach price (prop.ts) *)

Lemma futuresRiskToStopUsd_Fin
  (a s c pv : Q) (spec : PropMath.FuturesSpec) :
  0 < c -> PropMath.derivePointValueUsd spec = Fin pv ->
  PropMath.stopPoints
    (PropMath.futuresRiskToStopUsd (Fin a) (Fin s) (Fin c) spec)
  = Fin (Qabs (a - s)) /\
  PropMath.futures_riskUsd
    (PropMath.futuresRiskToStopUsd (Fin a) (Fin s) (Fin c) spec)
  = Fin (Qabs (a - s) * pv * c).
Proof.
  intros Hc Epv. unfold PropMath.futuresRiskToStopUsd, PropMath.priceToPoints.
  cbn [PropMath.stopPoints PropMath.futures_riskUsd].
  rewrite Epv, clampNonNegative_Fin by assumption.
  split; reflexivity.
Qed.

Lemma safeDiv_Fin (x y : Q) :
  ~ y == 0 -> PropMath.safeDiv (Fin x) (Fin y) = Fin (x / y).
Proof.
  intros H. unfold PropMath.safeDiv, zero. cbn [Num.isFinite negb orb Num.seq].
  destruct (Qeqb_spec y 0); [contradiction |]. now apply div_Fin.
Qed.



Lemma Qabs_adverse (side : Side) (a d : Q) :
  0 <= d -> Qabs (a - adverse side a d) == d.
Proof.
  intros Hd. unfold adverse. destruct side.
  - assert (E : a - (a - d) == d) by ring. rewrite E. now apply Qabs_pos.
  - assert (E : a - (a + d) == - d) by ring.
    rewrite E, Qabs_opp. now apply Qabs_pos.
Qed.



(* ------------------------------------------------------------------ *)
(** ** Mark-to-market PnL of the prop-firm page *)

Lemma pnlAtPrice_futures_Ok
  (side : Side) (e q m pv : Q) (args : PropFirm.Instrument) :
  0 < e -> 0 < q -> 0 < m -> 0 < pv ->
  PropFirm.pointValueUsd args = Some (Fin pv) ->
  PropFirm.pnlAtPrice PropFirm.futures side (Fin e) (Fin q) (Fin m) args
  = Ok (Fin ((m - e) * direction side * pv * q)).
Proof.
  intros He Hq Hm Hpv Ea. unfold PropFirm.pnlAtPrice.
  rewrite !gt_zero_Fin by assumption. cbn [andb negb]. rewrite Ea.
  rewrite gt_zero_Fin by assumption. cbn [negb].
  destruct side; reflexivity.
Qed.

Lemma pnlAtPrice_forex_Ok
  (side : Side) (e q m ps pvl : Q) (args : PropFirm.Instrument) :
  0 < e -> 0 < q -> 0 < m -> 0 < ps -> 0 < pvl ->
  PropFirm.pipSize args = Some (Fin ps) ->
  PropFirm.pipValueUsd args = Some (Fin pvl) ->
  PropFirm.pnlAtPrice PropFirm.forex side (Fin e) (Fin q) (Fin m) args
  = Ok (Fin ((m - e) / ps * direction side * pvl * q)).
Proof.
  intros He Hq Hm Hps Hpvl Es Ev. unfold PropFirm.pnlAtPrice.
  rewrite !gt_zero_Fin by assumption. cbn [andb negb]. rewrite Es, Ev.
  rewrite !gt_zero_Fin by assumption. cbn [andb negb Num.sub].
  rewrite div_Fin by lra.
  destruct side; reflexivity.
Qed.





(* ------------------------------------------------------------------ *)
(** ** Position size for a chosen stop (prop.ts) *)

Lemma clampNonNegative_nonneg (q : Q) :
  0 <= q -> exists c : Q, PropMath.clampNonNegative (Fin q) = Fin c /\ c == q.
Proof.
  intros Hq. unfold PropMath.clampNonNegative, zero.
  cbn [Num.isFinite Num.max Num.lt].
  destruct (Qltb_spec 0 q); [exists q | exists 0]; split;
    try reflexivity; lra.
Qed.

Lemma Qabs_pos_iff (x y : Q) : ~ x == y -> 0 < Qabs (x - y).
Proof.
  intros H. pose proof (Qabs_nonneg (x - y)) as Hn.
  destruct (Qeq_dec (Qabs (x - y)) 0) as [E | E]; [| lra].
  assert (Hle : Qabs (x - y) <= 0) by lra.
  apply Qabs_Qle_condition in Hle. exfalso. apply H. lra.
Qed.

Lemma futuresRisk_of_contracts (a s c pv : Q) (spec : PropMath.FuturesSpec) :
  0 <= c -> PropMath.derivePointValueUsd spec = Fin pv ->
  exists risk : Q,
    PropMath.futures_riskUsd
      (PropMath.futuresRiskToStopUsd (Fin a) (Fin s) (Fin c) spec)
    = Fin risk /\ risk == Qabs (a - s) * pv * c.
Proof.
  intros Hc Epv.
  destruct (clampNonNegative_nonneg c Hc) as (c' & Ec & Hc').
  unfold PropMath.futuresRiskToStopUsd, PropMath.priceToPoints.
  cbn [PropMath.futures_riskUsd]. rewrite Epv, Ec. cbn [Num.sub Num.abs Num.mul].
  eexists; split; [reflexivity |]. rewrite Hc'. reflexivity.
Qed.



(** X23: [futuresMaxContractsForStop] returns 0 contracts, not an
    unbounded number, when the stop is at the entry price, and also when
    the remaining drawdown is negative, NaN or infinite. *)
Theorem futuresMaxContractsForStop_zero
  (a s : Q) (rd : number) (spec : PropMath.FuturesSpec) :
  a == s \/ ~ isNonNegative rd ->
  PropMath.maxContracts
    (PropMath.futuresMaxContractsForStop (Fin a) (Fin s) rd spec)
  =n= zero.
Proof.
  intros H.
  destruct (derivePointValueUsd_finite spec) as (pv & Epv).
  unfold PropMath.futuresMaxContractsForStop, PropMath.priceToPoints.
  cbn [PropMath.maxContracts]. rewrite Epv.
  cbn [Num.sub Num.abs Num.mul]. unfold Num.gt, zero. cbn [Num.lt].
  set (p := Qabs (a - s) * pv).
  destruct (Qltb_spec 0 p) as [Hp | Hp].
  - destruct H as [E | Hrd].
    + exfalso. unfold p in Hp.
      assert (E0 : a - s == 0) by lra. rewrite E0 in Hp.
      change (Qabs 0) with 0 in Hp. lra.
    + destruct rd as [ | | | r]; cbn [isNonNegative] in Hrd.
      * reflexivity.
      * cbn [Num.div]. destruct (Qleb_spec 0 p); reflexivity.
      * cbn [Num.div]. destruct (Qltb_spec p 0); reflexivity.
      * rewrite div_Fin by lra. cbn [Num.floor].
        unfold PropMath.clampNonNegative, zero.
        cbn [Num.isFinite Num.max Num.lt].
        destruct (Qltb_spec 0 (inject_Z (Qfloor (r / p)))) as [Hf | Hf];
          [| reflexivity].
        exfalso. pose proof (Qfloor_le (r / p)) as Hle.
        assert (Hq : 0 < r / p) by lra.
        assert (E : r / p * p == r) by (field; lra).
        nra.
  - reflexivity.
Qed.

Lemma futuresMaxContractsForStop_zero_witness :
  PropMath.maxContracts
    (PropMath.futuresMaxContractsForStop (Fin 5000) (Fin 4980) PInf ES)
  =n= zero.
Proof.
  apply futuresMaxContractsForStop_zero. right. simpl. tauto.
Defined.



(* ------------------------------------------------------------------ *)
(** ** The breach price and the comparison of the prop-firm page *)



Lemma verdictOf_wd (tol d d' : Q) : d == d' -> verdictOf tol d = verdictOf tol d'.
Proof.
  intros E. unfold verdictOf.
  assert (Ea : Qabs d == Qabs d') by (rewrite E; reflexivity).
  destruct (Qltb_spec (Qabs d) tol), (Qltb_spec (Qabs d') tol); try lra;
    try reflexivity.
  destruct (Qltb_spec 0 d), (Qltb_spec 0 d'); try lra; reflexivity.
Qed.



(* ------------------------------------------------------------------ *)
(** ** Risk to the stop on the prop-firm page *)

Lemma eqv_refl (a : number) : a =n= a.
Proof. destruct a; simpl; auto. reflexivity. Qed.

Lemma eqv_sym (a b : number) : a =n= b -> b =n= a.
Proof. destruct a, b; simpl; auto. intros H. now symmetry. Qed.

Lemma eqv_trans (a b c : number) : a =n= b -> b =n= c -> a =n= c.
Proof.
  destruct a, b, c; simpl; auto; try tauto.
  intros H1 H2. now rewrite H1.
Qed.

Lemma mul_eqv (a a' b b' : number) :
  a =n= a' -> b =n= b' -> (a * b)%num =n= (a' * b')%num.
Proof.
  destruct a as [ | | | x], a' as [ | | | x']; simpl; try tauto;
    destruct b as [ | | | y], b' as [ | | | y']; simpl; try tauto;
    intros Ha Hb;
    repeat match goal with
      | |- context [Qeq_bool ?u ?v] => destruct (Qeqb_spec u v)
      | |- context [Num.Qltb ?u ?v] => destruct (Qltb_spec u v)
      end; simpl; try tauto; try lra.
  rewrite Ha, Hb. reflexivity.
Qed.

Lemma abs_mul (a b : number) :
  Num.abs (a * b) =n= (Num.abs a * Num.abs b)%num.
Proof.
  destruct a as [ | | | x], b as [ | | | y]; simpl; auto;
    try (pose proof (Qabs_nonneg y) as Hn;
         assert (Hz : Qabs y == 0 <-> y == 0)
           by (split; intros E;
               [assert (Hle : Qabs y <= 0) by lra;
                apply Qabs_Qle_condition in Hle; lra
               | rewrite E; reflexivity]));
    try (pose proof (Qabs_nonneg x) as Hn;
         assert (Hz : Qabs x == 0 <-> x == 0)
           by (split; intros E;
               [assert (Hle : Qabs x <= 0) by lra;
                apply Qabs_Qle_condition in Hle; lra
               | rewrite E; reflexivity]));
    repeat match goal with
      | |- context [Qeq_bool ?u ?v] => destruct (Qeqb_spec u v)
      | |- context [Num.Qltb ?u ?v] => destruct (Qltb_spec u v)
      end; simpl; try tauto; try lra.
  apply Qabs_Qmult.
Qed.

(** The magnitude of a product of four factors does not depend on the
    sign of the second. *)
Lemma abs_direction (x pv q : number) :
  Num.abs (x * Fin 1 * pv * q) =n= Num.abs (x * Fin (-1) * pv * q).
Proof.
  assert (H : forall d : number,
             Num.abs (x * d * pv * q)
             =n= (Num.abs x * Num.abs d * Num.abs pv * Num.abs q)%num).
  { intros d.
    eapply eqv_trans; [apply abs_mul |].
    apply mul_eqv; [| apply eqv_refl].
    eapply eqv_trans; [apply abs_mul |].
    apply mul_eqv; [| apply eqv_refl].
    apply abs_mul. }
  eapply eqv_trans; [apply (H (Fin 1)) |].
  apply eqv_sym. apply (H (Fin (-1))).
Qed.

(** X27: the risk to the stop reported on the prop-firm page does not
    depend on the side: for every average, stop price, mode and instrument,
    a long and a short are both without a result or both have the same risk,
    which is never negative.  A stop on the profitable side of the average is
    therefore reported with the same risk as one on the losing side. *)
Theorem riskToStop_ignores_side
  (avg : option PropFirm.Avg2Leg) (stopPrice : number)
  (mode : PropFirm.Mode) (args : PropFirm.Instrument) :
  sameOption (PropFirm.riskToStop avg stopPrice mode long args)
             (PropFirm.riskToStop avg stopPrice mode short args) /\
  forall (side : Side) (risk : number),
    PropFirm.riskToStop avg stopPrice mode side args = Some risk ->
    (risk <? zero)%num = false.
Proof.
  split.
  - unfold PropFirm.riskToStop, PropFirm.pnlAtPrice.
    destruct avg as [a |]; [| exact I].
    destruct (stopPrice >? zero)%num; [| exact I]. cbn [negb].
    destruct (negb _); [exact I |].
    destruct mode.
    + destruct (PropFirm.pointValueUsd args) as [pv |]; [| exact I].
      destruct (negb _); [exact I |].
      cbn [bind catchNull sameOption]. apply abs_direction.
    + destruct (PropFirm.pipSize args) as [ps |]; [| exact I].
      destruct (PropFirm.pipValueUsd args) as [pvl |]; [| exact I].
      destruct (negb _); [exact I |].
      cbn [bind catchNull sameOption]. apply abs_direction.
  - intros side risk. unfold PropFirm.riskToStop.
    destruct avg as [a |]; [| discriminate].
    destruct (negb _); [discriminate |].
    destruct (PropFirm.pnlAtPrice _ _ _ _ _ _) as [p | msg];
      cbn [bind catchNull]; [| discriminate].
    intros [= <-]. unfold zero.
    destruct p as [ | | | x]; cbn [Num.abs Num.lt]; try reflexivity.
    pose proof (Qabs_nonneg x). destruct (Qltb_spec (Qabs x) 0); [lra | reflexivity].
Qed.

(** Two ES contracts averaged at 5025: a stop at 5045 is 20 points on the
    profitable side of a long, and is reported with a risk of 2000. *)
Lemma riskToStop_ignores_side_witness :
  PropFirm.riskToStop
    (Some {| PropFirm.totalQty := Fin 2; PropFirm.avgPrice := Fin 5025;
             PropFirm.totalCost := Fin 10050 |})
    (Fin 5045) PropFirm.futures long
    {| PropFirm.pointValueUsd := Some (Fin 50);
       PropFirm.pipSize := Some (Fin (1 # 10000));
       PropFirm.pipValueUsd := Some (Fin 10) |}
  = Some (Fin 2000)
  /\ (Fin 2000 <? zero)%num = false.
Proof.
  split; [reflexivity |].
  apply (proj2 (riskToStop_ignores_side
                  (Some {| PropFirm.totalQty := Fin 2;
                           PropFirm.avgPrice := Fin 5025;
                           PropFirm.totalCost := Fin 10050 |})
                  (Fin 5045) PropFirm.futures
                  {| PropFirm.pointValueUsd := Some (Fin 50);
                     PropFirm.pipSize := Some (Fin (1 # 10000));
                     PropFirm.pipValueUsd := Some (Fin 10) |}) long).
  reflexivity.
Defined.

(* ------------------------------------------------------------------ *)
(** ** Effective remaining allowance, presets and the optional leg *)

(** X28: [effectiveRemaining] is either NaN or a finite positive number,
    never zero, negative or infinite; it does not exceed any ceiling that is
    itself finite and positive, and it does not depend on the order of the
    two ceilings. *)
Theorem effectiveRemaining_invariants (a b : number) :
  (PropFirm.effectiveRemaining a b = NaN
   \/ isPositive (PropFirm.effectiveRemaining a b)) /\
  (isPositive a -> (PropFirm.effectiveRemaining a b <=? a)%num = true) /\
  (isPositive b -> (PropFirm.effectiveRemaining a b <=? b)%num = true) /\
  PropFirm.effectiveRemaining a b =n= PropFirm.effectiveRemaining b a.
Proof.
  rewrite !effectiveRemaining_cases.
  destruct (isPositiveP a) as [Pa | Pa], (isPositiveP b) as [Pb | Pb].
  - destruct (isPositive_inv _ Pa) as (x & -> & Hx).
    destruct (isPositive_inv _ Pb) as (y & -> & Hy).
    rewrite !min_Fin. cbn [isPositive Num.le Num.eqv].
    pose proof (Q.le_min_l x y). pose proof (Q.le_min_r x y).
    split; [| split; [| split]].
    + right. destruct (Q.min_spec x y) as [[_ ->] | [_ ->]]; assumption.
    + intros _. destruct (Qleb_spec (Qmin x y) x); [reflexivity | lra].
    + intros _. destruct (Qleb_spec (Qmin x y) y); [reflexivity | lra].
    + destruct (Q.min_spec x y) as [[? ->] | [? ->]],
               (Q.min_spec y x) as [[? ->] | [? ->]]; lra.
  - destruct (isPositive_inv _ Pa) as (x & -> & Hx).
    split; [| split; [| split]].
    + right. exact Hx.
    + intros _. cbn [Num.le]. destruct (Qleb_spec x x); [reflexivity | lra].
    + tauto.
    + cbn [Num.eqv]. reflexivity.
  - destruct (isPositive_inv _ Pb) as (y & -> & Hy).
    split; [| split; [| split]].
    + right. exact Hy.
    + tauto.
    + intros _. cbn [Num.le]. destruct (Qleb_spec y y); [reflexivity | lra].
    + cbn [Num.eqv]. reflexivity.
  - split; [left; reflexivity |].
    split; [tauto |]. split; [tauto | exact I].
Qed.

Lemma effectiveRemaining_invariants_witness :
  (PropFirm.effectiveRemaining (Fin 500) (Fin 300) <=? Fin 500)%num = true.
Proof.
  apply (proj1 (proj2 (effectiveRemaining_invariants (Fin 500) (Fin 300)))).
  reflexivity.
Defined.

(** X29: every entry of FUTURES_PRESETS is found again under its own
    key, so the page's lookup of the selected instrument never comes back
    empty for a listed key, and it yields a finite positive point value,
    tickValueUsd / tickSize, once its tick fields are loaded and the override
    is reset; a key that is not listed is not found. *)
Theorem presets_consistent :
  Forall
    (fun p =>
       PropFirm.preset (PropFirm.key p) = Some p /\
       exists ts tv pv : Q,
         PropFirm.preset_tickSize p = Fin ts /\
         PropFirm.preset_tickValueUsd p = Fin tv /\
         presetPointValueUsd p = Fin pv /\
         0 < pv /\ pv * ts == tv)
    PropFirm.FUTURES_PRESETS /\
  NoDup (map PropFirm.key PropFirm.FUTURES_PRESETS) /\
  forall instrument : string,
    ~ In instrument (map PropFirm.key PropFirm.FUTURES_PRESETS) ->
    PropFirm.preset instrument = None.
Proof.
  split; [| split].
  - unfold PropFirm.FUTURES_PRESETS.
    repeat (apply Forall_cons;
            [split; [reflexivity |];
             do 3 eexists; repeat split; try reflexivity |]).
    apply Forall_nil.
  - unfold PropFirm.FUTURES_PRESETS. cbn [map PropFirm.key].
    repeat (apply NoDup_cons;
            [cbn [In]; intros H;
             repeat (destruct H as [H | H]; [discriminate |]); exact H |]).
    apply NoDup_nil.
  - intros instrument Hnot. unfold PropFirm.preset.
    destruct (find _ _) as [p |] eqn:E; [| reflexivity].
    apply find_some in E. destruct E as [Hin Hkey].
    apply String.eqb_eq in Hkey. exfalso. apply Hnot.
    rewrite <- Hkey. now apply in_map.
Qed.

Lemma presets_consistent_witness :
  PropFirm.preset "" = None.
Proof.
  apply (proj2 (proj2 presets_consistent)).
  cbn [map PropFirm.key PropFirm.FUTURES_PRESETS In]. intros H.
  repeat (destruct H as [H | H]; [discriminate |]). exact H.
Defined.


